(** * Vohala Network Scanner: a shallow embedding of [vohala_network_scanner.py]

    The scanner's functions are embedded as state-passing computations over
    an abstract platform (sockets, the procfs neighbour table, the [ping]
    and [nmblookup] tools, the resolver).  A Python exception is an
    explicit outcome; the world is kept when an exception is raised, as a
    Python [try]/[except] observes the effects performed before the
    failure. *)

From Stdlib Require Import ZArith Ascii String List Bool Lia.
From stdpp Require Import base option list gmap strings.

Local Open Scope string_scope.
Local Open Scope Z_scope.
Local Open Scope list_scope.

(** ** Python [str] primitives

    Text is modelled as [string] (8-bit characters).  Case mapping and the
    white-space classes are those of Python on the ASCII range, which is
    what procfs, [nmblookup] and hardware addresses consist of; characters
    above 127 are left alone. *)

Module PyStr.

Definition code (c : ascii) : N := N_of_ascii c.

(** [str.isspace] on one ASCII character: TAB, LF, VT, FF, CR, FS, GS, RS,
    US and SPACE. *)
Definition is_space (c : ascii) : bool :=
  let n := code c in
  (((9 <=? n) && (n <=? 13)) || ((28 <=? n) && (n <=? 32)))%N.

(** Line boundaries of [str.splitlines] on the ASCII range: LF, VT, FF,
    CR, FS, GS, RS. *)
Definition is_linebreak (c : ascii) : bool :=
  let n := code c in
  (((10 <=? n) && (n <=? 13)) || ((28 <=? n) && (n <=? 30)))%N.

Definition upper_char (c : ascii) : ascii :=
  let n := code c in
  if ((97 <=? n) && (n <=? 122))%N then ascii_of_N (n - 32) else c.

Definition lower_char (c : ascii) : ascii :=
  let n := code c in
  if ((65 <=? n) && (n <=? 90))%N then ascii_of_N (n + 32) else c.

Fixpoint map_chars (f : ascii -> ascii) (s : string) : string :=
  match s with
  | EmptyString => EmptyString
  | String c s' => String (f c) (map_chars f s')
  end.

(** [s.upper()] and [s.lower()]. *)
Definition upper : string -> string := map_chars upper_char.
Definition lower : string -> string := map_chars lower_char.

(** [s.replace(c, "")] for a one-character [c]. *)
Fixpoint remove_char (c : ascii) (s : string) : string :=
  match s with
  | EmptyString => EmptyString
  | String d s' =>
      if Ascii.eqb d c then remove_char c s' else String d (remove_char c s')
  end.

(** [s[:n]]. *)
Fixpoint slice_to (n : nat) (s : string) : string :=
  match n, s with
  | S n', String c s' => String c (slice_to n' s')
  | _, _ => EmptyString
  end.

(** [sub in s]. *)
Fixpoint contains (sub s : string) : bool :=
  String.prefix sub s ||
  match s with
  | EmptyString => false
  | String _ s' => contains sub s'
  end.

Fixpoint lstrip (s : string) : string :=
  match s with
  | EmptyString => EmptyString
  | String c s' => if is_space c then lstrip s' else s
  end.

Fixpoint rstrip (s : string) : string :=
  match s with
  | EmptyString => EmptyString
  | String c s' =>
      match rstrip s' with
      | EmptyString => if is_space c then EmptyString else String c EmptyString
      | r => String c r
      end
  end.

(** [s.strip()]. *)
Definition strip (s : string) : string := rstrip (lstrip s).

(** [s.split()]: the maximal runs of non-space characters. *)
Fixpoint split (s : string) : list string :=
  match s with
  | EmptyString => []
  | String c s' =>
      if is_space c then split s'
      else
        match s' with
        | EmptyString => [String c EmptyString]
        | String d _ =>
            if is_space d then String c EmptyString :: split s'
            else
              match split s' with
              | [] => [String c EmptyString]
              | w :: ws => String c w :: ws
              end
        end
  end.

(** [s.splitlines()]: a CR LF pair is one boundary, and a final boundary
    opens no empty last line. *)
Fixpoint splitlines (s : string) : list string :=
  match s with
  | EmptyString => []
  | String c s' =>
      if is_linebreak c then
        EmptyString ::
        match s' with
        | String d s'' =>
            if (code c =? 13)%N && (code d =? 10)%N
            then splitlines s'' else splitlines s'
        | EmptyString => []
        end
      else
        match splitlines s' with
        | [] => [String c EmptyString]
        | l :: ls => String c l :: ls
        end
  end.

(** Truth value of a [str]: the empty string is false. *)
Definition truthy (s : string) : bool :=
  match s with EmptyString => false | _ => true end.

End PyStr.


(** ** Exceptions and effects

    A computation takes the world and yields either a value or a raised
    exception, together with the world it left behind. *)

Inductive outcome (A : Type) : Type :=
| Ok (a : A)
| Raised.
Arguments Ok {A} a.
Arguments Raised {A}.

Definition M (W A : Type) : Type := W → outcome A * W.

Global Instance M_ret {W} : MRet (M W) := λ A a w, (Ok a, w).

Global Instance M_bind {W} : MBind (M W) := λ A B k m w,
  match m w with
  | (Ok a, w') => k a w'
  | (Raised, w') => (Raised, w')
  end.

(** [raise SomeError]. *)
Definition raise {W A} : M W A := λ w, (Raised, w).

(** [try: body / except: handler]; the handler starts from the world the
    failed body left. *)
Definition try_except {W A} (body handler : M W A) : M W A := λ w,
  match body w with
  | (Ok a, w') => (Ok a, w')
  | (Raised, w') => handler w'
  end.

(** ** The platform *)

Inductive sock_kind : Type := SOCK_DGRAM | SOCK_STREAM.

Definition fd : Type := nat.

Inductive ip_version : Type := IPv4 | IPv6.

(** An [ipaddress] network object: the network address as an integer and
    the prefix length. *)
Record network : Type := Network {
  version : ip_version;
  network_address : Z;
  prefixlen : Z
}.

(** What the program asks of the operating system and of the Python
    library.  Time-outs are in milliseconds.  [sys_read_lines] opens a text
    file and iterates over it: it raises when the file cannot be opened,
    and otherwise yields the lines the iterator delivers, with [true] when
    the iterator then raised instead of reaching the end of the file;
    [sys_run] is [subprocess.run] and yields the
    exit status; [sys_check_output] is [subprocess.check_output] with
    [text=True], which raises on a missing tool or a non-zero exit status;
    [sys_json_load] opens a file and yields the items of the JSON object in
    it; [lib_ip_network s] is [ipaddress.ip_network(s, strict=False)], [None]
    when it raises. *)
Class Platform (W : Type) : Type := {
  sys_socket : sock_kind → M W fd;
  sys_settimeout : fd → Z → M W ();
  sys_sendto : fd → string → string → Z → M W ();
  sys_connect_ex : fd → string → Z → M W Z;
  sys_close : fd → M W ();
  sys_read_lines : string → M W (list string * bool);
  sys_run : list string → M W Z;
  sys_check_output : list string → M W string;
  sys_gethostbyaddr : string → M W string;
  sys_isfile : string → M W bool;
  sys_json_load : string → M W (list (string * string));
  sys_print : string → W → W;
  lib_ip_network : string → option network
}.

(** ** Configuration constants *)

Definition PORTS : list Z :=
  [21; 22; 23; 25; 53; 80; 110; 135; 139; 143; 443; 445;
   3389; 5357; 8080; 8443].

Definition MAX_WORKERS : Z := 120.

Definition OUI_LOCAL_FILE : string := "oui_prefixes.json".

Definition OUI_FALLBACK_ITEMS : list (string * string) :=
  [ ("0001C0", "Hewlett-Packard");
    ("0003F8", "Hewlett-Packard");
    ("00085D", "Dell");
    ("001A2B", "Dfell");
    ("F0D5BF", "Dell");
    ("00265E", "Lenovo");
    ("EC8EAD", "Lenovo");
    ("3C5A37", "ASUSTek");
    ("B4A9FC", "ASUSTek");
    ("84A134", "Samsung");
    ("F8E61A", "Samsung");
    ("B827EB", "Raspberry Pi");
    ("D85D4C", "Xiaomi");
    ("A4B197", "Apple");
    ("F0D1A9", "Apple");
    ("BC929B", "OnePlus");
    ("18C04D", "HP Inc.");
    ("A0A36E", "Realtek") ].

(** A dict display: the items are stored left to right. *)
Definition dict_of_items (items : list (string * string)) : gmap string string :=
  foldl (λ m kv, <[kv.1 := kv.2]> m) ∅ items.

Definition OUI_FALLBACK : gmap string string := dict_of_items OUI_FALLBACK_ITEMS.

Definition ESC : string := String (ascii_of_N 27) EmptyString.
Definition RESET : string := ESC +:+ "[0m".

Definition ZERO_MAC : string := "00:00:00:00:00:00".



(** ** Pure parts of the scanner *)

(** [parts[0], parts[3]] of one row of [/proc/net/arp], stored when the
    hardware address is non-empty and not the all-zero one. *)
Definition arp_row (table : gmap string string) (line : string) : gmap string string :=
  let parts := PyStr.split line in
  if (4 <=? length parts)%nat then
    match parts !! 0%nat, parts !! 3%nat with
    | Some ip, Some mac =>
        if PyStr.truthy mac && negb (String.eqb mac ZERO_MAC)
        then <[ip := mac]> table
        else table
    | _, _ => table
    end
  else table.

(** [mac.upper().replace(":", "").replace("-", "")]. *)
Definition mac_normal_form (mac : string) : string :=
  PyStr.remove_char "-"%char (PyStr.remove_char ":"%char (PyStr.upper mac)).

(** [mac.upper().replace(":", "").replace("-", "")[:6]]. *)
Definition oui_prefix (mac : string) : string :=
  PyStr.slice_to 6 (mac_normal_form mac).

Definition vendor_from_mac (OUI_MAP : gmap string string) (mac : option string) : string :=
  match mac with
  | None => "-"
  | Some m =>
      if negb (PyStr.truthy m) then "-"
      else default "Unknown" (OUI_MAP !! oui_prefix m)
  end.

(** The loop of [load_oui_map] over [data.items()]. *)
Definition merge_oui (m : gmap string string) (data : list (string * string)) : gmap string string :=
  foldl (λ m kv, <[oui_prefix kv.1 := kv.2]> m) m data.

(** The port-collecting loop of [main]:
    [for port, ok in zip(PORTS, results): if ok: open_ports.append(port)]. *)
Definition collect_open (ports : list Z) (results : list bool) : list Z :=
  foldl (λ (open_ports : list Z) (po : Z * bool),
           if po.2 then open_ports ++ [po.1] else open_ports)
        [] (zip ports results).

(** ** [ipaddress] networks *)






Fixpoint dec_digits (fuel : nat) (z : Z) (acc : string) : string :=
  match fuel with
  | O => acc
  | S fuel' =>
      let acc' := String (ascii_of_N (48 + Z.to_N (z mod 10))) acc in
      if z <? 10 then acc' else dec_digits fuel' (z / 10) acc'
  end.

(** [str(z)] for a non-negative integer. *)
Definition dec (z : Z) : string :=
  dec_digits (S (Z.to_nat (Z.log2 z))) z EmptyString.


(** ** The probes *)

Section Scanner.

Context {W : Type} `{!Platform W}.

Definition udp_nudge (ip : string) (port : Z) : M W () :=
  try_except
    (s ← sys_socket SOCK_DGRAM;
     sys_settimeout s 50;;
     sys_sendto s "x" ip port;;
     sys_close s)
    (mret ()).

(** [table] is created before the [try] and returned after it, so a
    failure leaves the table as filled so far: empty when the file cannot
    be opened or [next(f)] raises (no line at all), and holding the rows
    delivered when the iteration raises after them. *)
Definition read_arp_table : M W (gmap string string) := λ w,
  match sys_read_lines "/proc/net/arp" w with
  | (Raised, w') => (Ok ∅, w')
  | (Ok ([], _), w') => (Ok ∅, w')
  | (Ok (_ :: rows, false), w') => (Ok (foldl arp_row ∅ rows), w')
  | (Ok (_ :: rows, true), w') => (Ok (foldl arp_row ∅ rows), w')
  end.

Definition mac_for_ip (ip : string) : M W (option string) :=
  table ← read_arp_table;
  mret (table !! ip).

Definition ping (ip : string) : M W bool :=
  try_except
    (r ← sys_run ["ping"; "-c"; "1"; "-W"; "1"; ip];
     mret (r =? 0))
    (mret false).

Definition tcp_check (ip : string) (port : Z) (timeout : Z) : M W bool :=
  s ← sys_socket SOCK_STREAM;
  sys_settimeout s timeout;;
  try_except
    (r ← sys_connect_ex s ip port;
     sys_close s;;
     mret (r =? 0))
    (mret false).

Definition nmb_has_name (ip : string) : M W bool :=
  try_except
    (out ← sys_check_output ["nmblookup"; "-A"; ip];
     mret (PyStr.contains "<00>" out))
    (mret false).

(** The [for line in out.splitlines()] loop of [resolve_hostname]; [Some]
    is the [return name] inside it, and [L.split()[0]] raises on an empty
    list. *)
Fixpoint netbios_name_loop (lines : list string) : M W (option string) :=
  match lines with
  | [] => mret None
  | line :: rest =>
      let L := PyStr.strip line in
      if PyStr.contains "<00>" L && negb (PyStr.contains "group" (PyStr.lower L))
      then
        match PyStr.split L with
        | [] => raise
        | name :: _ =>
            if PyStr.truthy name && negb (String.eqb name "name_query")
            then mret (Some name)
            else netbios_name_loop rest
        end
      else netbios_name_loop rest
  end.

Definition resolve_hostname (ip : string) : M W string :=
  r ← try_except (name ← sys_gethostbyaddr ip; mret (Some name)) (mret None);
  match r : option string with
  | Some name => mret name
  | None =>
      r ← try_except
             (out ← sys_check_output ["nmblookup"; "-A"; ip];
              netbios_name_loop (PyStr.splitlines out))
             (mret None);
      match r : option string with
      | Some name => mret name
      | None => mret "-"
      end
  end.

(** [if mac_for_ip(ip):] — [None] and the empty string are false. *)
Definition neighbor_hit (ip : string) : M W bool :=
  mac ← mac_for_ip ip;
  mret (from_option PyStr.truthy false mac).

(** [for p in PORTS: if tcp_check(ip, p): return True]; the result tells
    whether the loop returned. *)
Fixpoint any_port_open (ip : string) (ports : list Z) : M W bool :=
  match ports with
  | [] => mret false
  | p :: rest =>
      ok ← tcp_check ip p 500;
      if ok : bool then mret true else any_port_open ip rest
  end.

Definition is_alive (ip : string) : M W bool :=
  udp_nudge ip 1;;
  hit ← neighbor_hit ip;
  if hit : bool then mret true else
  up ← ping ip;
  if up : bool then mret true else
  open ← any_port_open ip PORTS;
  if open : bool then mret true else
  named ← nmb_has_name ip;
  if named : bool then mret true else
  hit ← neighbor_hit ip;
  if hit : bool then mret true else
  mret false.

Definition load_oui_map : M W (gmap string string) :=
  try_except
    (present ← sys_isfile OUI_LOCAL_FILE;
     if present : bool then
       data ← sys_json_load OUI_LOCAL_FILE;
       mret (merge_oui OUI_FALLBACK data)
     else mret OUI_FALLBACK)
    (mret OUI_FALLBACK).

Definition ip_network (s : string) : M W network :=
  match lib_ip_network s with
  | Some n => mret n
  | None => raise
  end.


(** [ex2.map(f, xs)] hands the results back in the order of [xs], and
    re-raises a task's exception when its result is reached.  The tasks
    are run here one after the other. *)
Fixpoint executor_map {A B} (f : A → M W B) (xs : list A) : M W (list B) :=
  match xs with
  | [] => mret []
  | x :: rest =>
      y ← f x;
      ys ← executor_map f rest;
      mret (y :: ys)
  end.

(** The port scan of one alive host in [main]. *)
Definition scan_ports (ip : string) : M W (list Z) :=
  results ← executor_map (λ p, tcp_check ip p 500) PORTS;
  mret (collect_open PORTS results).

End Scanner.

(** ** A scripted platform

    A concrete platform on which the scanner runs by computation: the
    answers of the network are read from tables, descriptors are handed
    out up to a limit and tracked until closed, and every call is logged. *)

Module Sim.

Inductive event : Type :=
| EvSocket (k : sock_kind) (s : option fd)
| EvSendto (s : fd) (ip : string) (port : Z)
| EvConnect (s : fd) (ip : string) (port : Z)
| EvClose (s : fd)
| EvReadLines (path : string)
| EvRun (argv : list string)
| EvCheckOutput (argv : list string)
| EvGethostbyaddr (ip : string)
| EvPrint (line : string).

Record world : Type := World {
  (** what the successive reads of [/proc/net/arp] deliver; [None] and an
      exhausted script: the file cannot be read *)
  arp_reads : list (option (list string));
  (** exit status of [ping] per address; no entry: the tool is missing *)
  ping_status : list (string * Z);
  (** the (address, port) pairs that accept a connection *)
  accepting : list (string * Z);
  (** addresses on which [connect_ex] raises instead of returning a code *)
  unresolvable : list string;
  (** output of a successful [nmblookup -A] per address *)
  nmb_output : list (string * string);
  (** reverse DNS *)
  dns : list (string * string);
  (** [oui_prefixes.json]: absent, unreadable as JSON, or its items *)
  oui_file : option (option (list (string * string)));
  fd_limit : nat;
  open_fds : list fd;
  next_fd : fd;
  trace : list event;
  stdout : list string
}.

Definition quiet : world :=
  World [] [] [] [] [] [] None 1024%nat [] 3%nat [] [].

Definition log (e : event) (w : world) : world :=
  World (arp_reads w) (ping_status w) (accepting w) (unresolvable w)
        (nmb_output w) (dns w) (oui_file w) (fd_limit w) (open_fds w)
        (next_fd w) (trace w ++ [e]) (stdout w).

Definition with_fds (fds : list fd) (next : fd) (w : world) : world :=
  World (arp_reads w) (ping_status w) (accepting w) (unresolvable w)
        (nmb_output w) (dns w) (oui_file w) (fd_limit w) fds
        next (trace w) (stdout w).

Definition with_arp (reads : list (option (list string))) (w : world) : world :=
  World reads (ping_status w) (accepting w) (unresolvable w)
        (nmb_output w) (dns w) (oui_file w) (fd_limit w) (open_fds w)
        (next_fd w) (trace w) (stdout w).

Definition with_stdout (out : list string) (w : world) : world :=
  World (arp_reads w) (ping_status w) (accepting w) (unresolvable w)
        (nmb_output w) (dns w) (oui_file w) (fd_limit w) (open_fds w)
        (next_fd w) (trace w) out.

Fixpoint assoc {V} (k : string) (l : list (string * V)) : option V :=
  match l with
  | [] => None
  | (k', v) :: rest => if String.eqb k' k then Some v else assoc k rest
  end.

Definition answer {A} (o : option A) : M world A :=
  match o with
  | Some a => mret a
  | None => raise
  end.

Definition socket (k : sock_kind) : M world fd := λ w,
  if (length (open_fds w) <? fd_limit w)%nat
  then (Ok (next_fd w),
        log (EvSocket k (Some (next_fd w)))
            (with_fds (next_fd w :: open_fds w) (S (next_fd w)) w))
  else (Raised, log (EvSocket k None) w).

Definition connect_ex (s : fd) (ip : string) (port : Z) : M world Z := λ w,
  let w' := log (EvConnect s ip port) w in
  if existsb (String.eqb ip) (unresolvable w) then (Raised, w')
  else if existsb (λ a, String.eqb a.1 ip && (a.2 =? port)) (accepting w)
  then (Ok 0, w') else (Ok 111, w').

Definition close (s : fd) : M world () := λ w,
  (Ok (), log (EvClose s)
              (with_fds (filter (λ x, x ≠ s) (open_fds w)) (next_fd w) w)).

Definition read_lines (path : string) : M world (list string * bool) := λ w,
  let w' := log (EvReadLines path) w in
  if String.eqb path "/proc/net/arp" then
    match arp_reads w with
    | Some lines :: rest => (Ok (lines, false), with_arp rest w')
    | None :: rest => (Raised, with_arp rest w')
    | [] => (Raised, w')
    end
  else (Raised, w').

Definition run (argv : list string) : M world Z := λ w,
  answer (assoc (List.last argv "") (ping_status w)) (log (EvRun argv) w).

Definition check_output (argv : list string) : M world string := λ w,
  answer (assoc (List.last argv "") (nmb_output w)) (log (EvCheckOutput argv) w).

Definition gethostbyaddr (ip : string) : M world string := λ w,
  answer (assoc ip (dns w)) (log (EvGethostbyaddr ip) w).

Definition isfile (path : string) : M world bool := λ w,
  (Ok (String.eqb path OUI_LOCAL_FILE && bool_decide (is_Some (oui_file w))), w).

Definition json_load (path : string) : M world (list (string * string)) := λ w,
  if String.eqb path OUI_LOCAL_FILE
  then answer (mjoin (oui_file w)) w
  else (Raised, w).

Definition print (line : string) (w : world) : world :=
  log (EvPrint line) (with_stdout (stdout w ++ [line]) w).

(** *** Dotted-quad networks with a prefix length *)

Definition digit (c : ascii) : option Z :=
  let n := N_of_ascii c in
  if ((48 <=? n) && (n <=? 57))%N then Some (Z.of_N n - 48) else None.

Fixpoint number_from (acc : Z) (s : string) : option Z :=
  match s with
  | EmptyString => Some acc
  | String c s' =>
      match digit c with
      | Some d => number_from (acc * 10 + d) s'
      | None => None
      end
  end.

(** A decimal numeral of at most [width] digits without a leading zero. *)
Definition number (width : nat) (s : string) : option Z :=
  match s with
  | EmptyString => None
  | String c s' =>
      if (String.length s <=? width)%nat &&
         (negb (Ascii.eqb c "0") || String.eqb s' EmptyString)
      then number_from 0 s else None
  end.

(** [s.split(c)]. *)
Fixpoint split_on (c : ascii) (s : string) : list string :=
  match s with
  | EmptyString => [EmptyString]
  | String d s' =>
      match split_on c s' with
      | w :: ws => if Ascii.eqb d c then EmptyString :: w :: ws else String d w :: ws
      | [] => []
      end
  end.

Definition bounded (hi : Z) (o : option Z) : option Z :=
  match o with
  | Some z => if z <=? hi then Some z else None
  | None => None
  end.

Definition ipv4_address (s : string) : option Z :=
  match map (λ o, bounded 255 (number 3 o)) (split_on "." s) with
  | [Some a; Some b; Some c; Some d] =>
      Some (Z.lor (Z.shiftl a 24) (Z.lor (Z.shiftl b 16) (Z.lor (Z.shiftl c 8) d)))
  | _ => None
  end.

(** [ip_network(s, strict=False)] on [a.b.c.d] and [a.b.c.d/len]: the host
    bits of the address are masked away. *)
Definition ip_network (s : string) : option network :=
  match split_on "/" s with
  | [a] =>
      match ipv4_address a with
      | Some addr => Some (Network IPv4 addr 32)
      | None => None
      end
  | [a; p] =>
      match ipv4_address a, bounded 32 (number 2 p) with
      | Some addr, Some len =>
          Some (Network IPv4 (Z.land addr (Z.shiftl (Z.ones len) (32 - len))) len)
      | _, _ => None
      end
  | _ => None
  end.

Global Instance platform : Platform world := {|
  sys_socket := socket;
  sys_settimeout := λ _ _, mret ();
  sys_sendto := λ s data ip port w, (Ok (), log (EvSendto s ip port) w);
  sys_connect_ex := connect_ex;
  sys_close := close;
  sys_read_lines := read_lines;
  sys_run := run;
  sys_check_output := check_output;
  sys_gethostbyaddr := gethostbyaddr;
  sys_isfile := isfile;
  sys_json_load := json_load;
  sys_print := print;
  lib_ip_network := ip_network
|}.

End Sim.

(** ** Specification-side notions *)

(** Probes evaluated left to right until the first positive one. *)
Fixpoint first_positive {W} (probes : list (M W bool)) : M W bool :=
  match probes with
  | [] => mret false
  | p :: rest =>
      b ← p;
      if b : bool then mret true else first_positive rest
  end.

(** The probes of [is_alive], in the order of the specification. *)
Definition liveness_probes {W} `{!Platform W} (ip : string) : list (M W bool) :=
  [neighbor_hit ip; ping ip]
  ++ map (λ p, tcp_check ip p 500) PORTS
  ++ [nmb_has_name ip; neighbor_hit ip].

(** [negatives ps w w']: run one after the other from [w], the probes [ps]
    all answer false and leave the world [w']. *)
Inductive negatives {W} : list (M W bool) → W → W → Prop :=
| negatives_nil w : negatives [] w w
| negatives_cons p ps w w1 w2 :
    p w = (Ok false, w1) → negatives ps w1 w2 → negatives (p :: ps) w w2.

(** Every entry of the table is a non-empty, non-zero address. *)
Definition table_valid (t : gmap string string) : Prop :=
  ∀ ip mac, t !! ip = Some mac → mac ≠ EmptyString ∧ mac ≠ ZERO_MAC.

(** ** Example worlds *)

Definition LF : string := String (ascii_of_N 10) EmptyString.
Definition TAB : string := String (ascii_of_N 9) EmptyString.

(** [/proc/net/arp] with a reachable neighbour and an incomplete entry. *)
Definition arp_table : list string :=
  [ "IP address       HW type     Flags       HW address            Mask     Device" +:+ LF;
    "192.168.1.7      0x1         0x2         b8:27:eb:11:22:33     *        eth0" +:+ LF;
    "192.168.1.9      0x1         0x0         00:00:00:00:00:00     *        eth0" +:+ LF ].

(** The answer of a workstation, and the answer of a host that registers
    group names only. *)
Definition nmb_workstation : string :=
  "Looking up status of 192.168.1.30" +:+ LF +:+
  TAB +:+ "WORKGROUP       <00> - <GROUP> B <ACTIVE> " +:+ LF +:+
  TAB +:+ "DESKTOP-A1      <00> -         B <ACTIVE> " +:+ LF +:+
  TAB +:+ "DESKTOP-A1      <20> -         B <ACTIVE> " +:+ LF +:+
  LF +:+
  TAB +:+ "MAC Address = 00-11-22-33-44-55" +:+ LF.

Definition nmb_groups_only : string :=
  "Looking up status of 192.168.1.20" +:+ LF +:+
  TAB +:+ "WORKGROUP       <00> - <GROUP> B <ACTIVE> " +:+ LF +:+
  TAB +:+ "WORKGROUP       <1e> - <GROUP> B <ACTIVE> " +:+ LF +:+
  LF +:+
  TAB +:+ "MAC Address = 00-00-00-00-00-00" +:+ LF.

(** A small home network: [.7] is in the neighbour table, [.1] answers
    ping and has a reverse-DNS name, [.20] and [.30] answer NetBIOS status
    queries, [.40] accepts connections on port 8080. *)
Definition home : Sim.world :=
  Sim.World
    [Some arp_table; Some arp_table; Some arp_table; Some arp_table]
    [("192.168.1.1", 0); ("192.168.1.7", 1); ("192.168.1.20", 1);
     ("192.168.1.30", 1); ("192.168.1.40", 1); ("192.168.1.200", 1)]
    [("192.168.1.40", 8080); ("192.168.1.40", 22)]
    ["fe80::1"]
    [("192.168.1.20", nmb_groups_only); ("192.168.1.30", nmb_workstation)]
    [("192.168.1.1", "router.lan")]
    None 1024%nat [] 3%nat [] [].

(** The same network when the process has no descriptor left. *)
Definition exhausted : Sim.world :=
  Sim.World
    (Sim.arp_reads home) (Sim.ping_status home) (Sim.accepting home)
    (Sim.unresolvable home) (Sim.nmb_output home) (Sim.dns home)
    (Sim.oui_file home) 0%nat [] 3%nat [] [].

(** A record line of an adapter-status answer that names the workstation
    service: a [<00>] resource that is not a group name, which [nmblookup]
    marks with the flag [<GROUP>]; and an answer that has one. *)
Definition workstation_record (line : string) : bool :=
  PyStr.contains "<00>" line && negb (PyStr.contains "<GROUP>" line).

Definition has_workstation_name (out : string) : bool :=
  existsb workstation_record (PyStr.splitlines out).

Fixpoint no_linebreak (s : string) : bool :=
  match s with
  | EmptyString => true
  | String c s' => negb (PyStr.is_linebreak c) && no_linebreak s'
  end.

(** A computation that raises from no world. *)
Definition never_raises {W A} (m : M W A) : Prop := ∀ w, (m w).1 ≠ Raised.

(** The test [resolve_hostname] applies to a stripped line:
    ["<00>" in L and "group" not in L.lower()]. *)
Definition name_line (L : string) : bool :=
  PyStr.contains "<00>" L && negb (PyStr.contains "group" (PyStr.lower L)).

(** The name [resolve_hostname] takes from a line: the first word of a
    line that passes its test, unless it is the literal [name_query]. *)
Definition netbios_candidate (line : string) : option string :=
  let L := PyStr.strip line in
  if name_line L then
    match PyStr.split L with
    | name :: _ =>
        if PyStr.truthy name && negb (String.eqb name "name_query")
        then Some name else None
    | [] => None
    end
  else None.

(** The first name offered by the lines of an answer. *)
Fixpoint first_candidate (lines : list string) : option string :=
  match lines with
  | [] => None
  | line :: rest =>
      match netbios_candidate line with
      | Some name => Some name
      | None => first_candidate rest
      end
  end.




(** The answer of a workstation whose name contains the letters of
    "group". *)
Definition nmb_groupware : string :=
  "Looking up status of 192.168.1.50" +:+ LF +:+
  TAB +:+ "GROUPWARE01     <00> -         B <ACTIVE> " +:+ LF +:+
  TAB +:+ "OFFICE          <00> - <GROUP> B <ACTIVE> " +:+ LF +:+
  LF +:+
  TAB +:+ "MAC Address = 00-11-22-33-44-66" +:+ LF.

(** A neighbour table that writes hardware addresses with hyphens. *)
Definition arp_hyphens : list string :=
  [ "IP address       HW type     Flags       HW address            Mask     Device" +:+ LF;
    "192.168.1.9      0x1         0x0         00-00-00-00-00-00     *        eth0" +:+ LF ].

(** An office network: [.50] answers NetBIOS status queries under the name
    GROUPWARE01, the reverse-DNS zone gives [.60] the root name, and the
    neighbour table is written with hyphens. *)
Definition office : Sim.world :=
  Sim.World
    [Some arp_hyphens; Some arp_hyphens]
    [] [] []
    [("192.168.1.50", nmb_groupware)]
    [("192.168.1.60", EmptyString)]
    None 1024%nat [] 3%nat [] [].

(** The scripted platform when reading [/proc/net/arp] fails after the
    second line. *)
Definition interrupted : Platform Sim.world := {|
  sys_socket := Sim.socket;
  sys_settimeout := λ _ _, mret ();
  sys_sendto := λ s data ip port w, (Ok (), Sim.log (Sim.EvSendto s ip port) w);
  sys_connect_ex := Sim.connect_ex;
  sys_close := Sim.close;
  sys_read_lines := λ path w,
    match Sim.read_lines path w with
    | (Ok (lines, _), w') => (Ok (take 2 lines, true), w')
    | (Raised, w') => (Raised, w')
    end;
  sys_run := Sim.run;
  sys_check_output := Sim.check_output;
  sys_gethostbyaddr := Sim.gethostbyaddr;
  sys_isfile := Sim.isfile;
  sys_json_load := Sim.json_load;
  sys_print := Sim.print;
  lib_ip_network := Sim.ip_network
|}.

(** A home network whose [oui_prefixes.json] renames a built-in prefix
    and adds one. *)
Definition customised : Sim.world :=
  Sim.World
    (Sim.arp_reads home) (Sim.ping_status home) (Sim.accepting home)
    (Sim.unresolvable home) (Sim.nmb_output home) (Sim.dns home)
    (Some (Some [("b8:27:eb", "Pi Foundation"); ("00-11-22-33-44-55", "Acme")]))
    1024%nat [] 3%nat [] [].

(** [s.replace(c, d)] for one-character [c] and [d]. *)
Fixpoint replace_char (c d : ascii) (s : string) : string :=
  match s with
  | EmptyString => EmptyString
  | String x s' => String (if Ascii.eqb x c then d else x) (replace_char c d s')
  end.


(** The scripted platform on a host without a route: every datagram is
    refused ([sendto] raises), everything else is as scripted. *)
Definition unreachable : Platform Sim.world := {|
  sys_socket := Sim.socket;
  sys_settimeout := λ _ _, mret ();
  sys_sendto := λ s data ip port w, (Raised, Sim.log (Sim.EvSendto s ip port) w);
  sys_connect_ex := Sim.connect_ex;
  sys_close := Sim.close;
  sys_read_lines := Sim.read_lines;
  sys_run := Sim.run;
  sys_check_output := Sim.check_output;
  sys_gethostbyaddr := Sim.gethostbyaddr;
  sys_isfile := Sim.isfile;
  sys_json_load := Sim.json_load;
  sys_print := Sim.print;
  lib_ip_network := Sim.ip_network
|}.

(** [ran f xs ys w w']: the tasks [f x], run one after the other from [w]
    in the order of [xs], return the values [ys] and leave [w']. *)
Inductive ran {W A B} (f : A → M W B) : list A → list B → W → W → Prop :=
| ran_nil w : ran f [] [] w w
| ran_cons x xs y ys w w1 w2 :
    f x w = (Ok y, w1) → ran f xs ys w1 w2 → ran f (x :: xs) (y :: ys) w w2.

(** A character that normalisation keeps as it is: not a lower-case
    letter, not a colon, not a hyphen. *)
Definition normal_char (c : ascii) : bool :=
  Ascii.eqb (PyStr.upper_char c) c && negb (Ascii.eqb c ":") && negb (Ascii.eqb c "-").

Fixpoint normal_chars (s : string) : bool :=
  match s with
  | EmptyString => true
  | String c s' => normal_char c && normal_chars s'
  end.

(** ** The console: menu, formatting and the report line *)

Module PyFmt.

Fixpoint spaces (n : nat) : string :=
  match n with
  | O => EmptyString
  | S n' => String " " (spaces n')
  end.

(** [s.center(width)]: the margin is split in two, the odd column going
    to the left when the width is odd too. *)
Definition center (width : Z) (s : string) : string :=
  let len := Z.of_nat (String.length s) in
  if width <=? len then s
  else
    let marg := width - len in
    let left := marg / 2 + Z.land (Z.land marg width) 1 in
    spaces (Z.to_nat left) +:+ s +:+ spaces (Z.to_nat (marg - left)).

(** [f"{s:<n}"]: padded with spaces on the right up to [n] columns. *)
Definition ljust (n : nat) (s : string) : string :=
  s +:+ spaces (n - String.length s).

(** [sep.join(items)]. *)
Fixpoint join (sep : string) (items : list string) : string :=
  match items with
  | [] => EmptyString
  | [x] => x
  | x :: rest => x +:+ sep +:+ join sep rest
  end.

Definition digit (c : ascii) : option Z :=
  let n := N_of_ascii c in
  if ((48 <=? n) && (n <=? 57))%N then Some (Z.of_N n - 48) else None.



End PyFmt.


Definition GREEN : string := ESC +:+ "[92m".

(** What the menu asks of the terminal: [input(prompt)], which raises at
    the end of the input, and [shutil.get_terminal_size().columns]. *)
Class Console (W : Type) : Type := {
  sys_input : string → M W string;
  sys_terminal_columns : M W Z
}.


(** The line [main] prints for an alive host:
    [f"{GREEN}{ip:<16}{RESET}{name:<32}{(mac or '-'):<18}{vend:<16}{ports_s}"]. *)
Definition host_line (ip name mac vend ports_s : string) : string :=
  GREEN +:+ PyFmt.ljust 16 ip +:+ RESET +:+ PyFmt.ljust 32 name +:+
  PyFmt.ljust 18 mac +:+ PyFmt.ljust 16 vend +:+ ports_s.

(** [",".join(map(str, open_ports)) if open_ports else "-"]. *)
Definition ports_field (open_ports : list Z) : string :=
  match open_ports with
  | [] => "-"
  | _ => PyFmt.join "," (map dec open_ports)
  end.

Section Console.

Context {W : Type} `{!Platform W} `{!Console W}.

(** [print(line)]. *)
Definition print (line : string) : M W () := λ w, (Ok (), sys_print line w).

Definition term_width : M W Z :=
  try_except sys_terminal_columns (mret 80).

Definition center (text : string) : M W string :=
  w ← term_width;
  mret (PyFmt.join LF (map (PyFmt.center w) (PyStr.splitlines text))).






(** The body of the loop of [main] for a host found alive. *)
Definition report_host (OUI_MAP : gmap string string) (ip : string) : M W () :=
  mac ← mac_for_ip ip;
  let vend :=
    if from_option PyStr.truthy false mac then vendor_from_mac OUI_MAP mac else "-" in
  name ← resolve_hostname ip;
  open_ports ← scan_ports ip;
  print (host_line ip name
           (if from_option PyStr.truthy false mac then default "-" mac else "-")
           vend (ports_field open_ports)).

End Console.

(** ** A scripted console

    The scripted platform with a terminal of 60 columns and a script of
    what the user types ([None]: the input has ended). *)

Module Desk.

Definition world : Type := Sim.world * list (option string).

Definition lift {A} (m : M Sim.world A) : M world A := λ w,
  let (r, s) := m w.1 in (r, (s, w.2)).

Definition input (prompt : string) : M world string := λ w,
  match w.2 with
  | Some line :: rest => (Ok line, (w.1, rest))
  | None :: rest => (Raised, (w.1, rest))
  | [] => (Raised, w)
  end.

Definition platform : Platform world := {|
  sys_socket k := lift (Sim.socket k);
  sys_settimeout _ _ := mret ();
  sys_sendto s data ip port := lift (sys_sendto s data ip port);
  sys_connect_ex s ip port := lift (Sim.connect_ex s ip port);
  sys_close s := lift (Sim.close s);
  sys_read_lines path := lift (Sim.read_lines path);
  sys_run argv := lift (Sim.run argv);
  sys_check_output argv := lift (Sim.check_output argv);
  sys_gethostbyaddr ip := lift (Sim.gethostbyaddr ip);
  sys_isfile path := lift (Sim.isfile path);
  sys_json_load path := lift (Sim.json_load path);
  sys_print line w := (Sim.print line w.1, w.2);
  lib_ip_network := Sim.ip_network
|}.

Definition console : Console world := {|
  sys_input := input;
  sys_terminal_columns := mret 60
|}.


End Desk.

(** * Properties *)

(** ** The neighbour table *)

Section Neighbours.

Context {W : Type} `{!Platform W}.

Lemma arp_row_valid t line : table_valid t → table_valid (arp_row t line).
Proof.
  intros Ht. unfold arp_row.
  destruct (4 <=? length (PyStr.split line))%nat; [|done].
  destruct (PyStr.split line !! 0%nat) as [ip|]; [|done].
  destruct (PyStr.split line !! 3%nat) as [mac|]; [|done].
  destruct (PyStr.truthy mac) eqn:Htr; [|done].
  destruct (String.eqb mac ZERO_MAC) eqn:Hz; [done|]. simpl.
  intros ip' mac'. rewrite lookup_insert. case_decide; [|by apply Ht].
  intros [= <-]. split.
  - intros ->. discriminate.
  - by apply String.eqb_neq.
Qed.

Lemma arp_rows_valid rows t : table_valid t → table_valid (foldl arp_row t rows).
Proof.
  revert t. induction rows as [|line rows IH]; intros t Ht; [done|].
  simpl. apply IH. by apply arp_row_valid.
Qed.

(** A row whose first field is another address, or whose fourth field is
    the all-zero address, leaves the entry of [ip] alone. *)
Lemma arp_row_other t line ip :
  (PyStr.split line !! 0%nat = Some ip → PyStr.split line !! 3%nat = Some ZERO_MAC) →
  arp_row t line !! ip = t !! ip.
Proof.
  intros Hrow. unfold arp_row.
  destruct (4 <=? length (PyStr.split line))%nat; [|done].
  destruct (PyStr.split line !! 0%nat) as [ip'|] eqn:H0; [|done].
  destruct (PyStr.split line !! 3%nat) as [mac|] eqn:H3; [|done].
  destruct (PyStr.truthy mac); [|done].
  destruct (String.eqb mac ZERO_MAC) eqn:Hz; [done|]. simpl.
  apply lookup_insert_ne. intros ->.
  specialize (Hrow eq_refl). injection Hrow as ->.
  by rewrite String.eqb_refl in Hz.
Qed.

Lemma arp_rows_other rows t ip :
  (∀ line, line ∈ rows →
     PyStr.split line !! 0%nat = Some ip → PyStr.split line !! 3%nat = Some ZERO_MAC) →
  foldl arp_row t rows !! ip = t !! ip.
Proof.
  revert t. induction rows as [|line rows IH]; intros t Hrows; [done|].
  simpl. rewrite IH.
  - apply arp_row_other, Hrows. by left.
  - intros l Hl. apply Hrows. by right.
Qed.

(** A row with at least four fields and a usable hardware address binds
    its first field to the fourth. *)
Lemma arp_row_binds t line ip mac :
  PyStr.split line !! 0%nat = Some ip →
  PyStr.split line !! 3%nat = Some mac →
  mac ≠ EmptyString → mac ≠ ZERO_MAC →
  arp_row t line !! ip = Some mac.
Proof.
  intros H0 H3 Hne Hnz. unfold arp_row.
  assert (3 < length (PyStr.split line))%nat as Hlen
    by (eapply lookup_lt_Some; exact H3).
  destruct (Nat.leb_spec 4 (length (PyStr.split line))); [|lia].
  rewrite H0, H3.
  destruct mac; [done|]. simpl PyStr.truthy.
  apply String.eqb_neq in Hnz. rewrite Hnz. simpl.
  apply lookup_insert_eq.
Qed.

Lemma read_arp_table_run w :
  read_arp_table w =
    match sys_read_lines "/proc/net/arp" w with
    | (Ok (lines, _), w') => (Ok (foldl arp_row ∅ (tail lines)), w')
    | (Raised, w') => (Ok ∅, w')
    end.
Proof.
  unfold read_arp_table.
  destruct (sys_read_lines "/proc/net/arp" w) as [[[[|header rows] []]|] w'];
    reflexivity.
Qed.

Lemma mac_for_ip_run ip w :
  mac_for_ip ip w =
    match sys_read_lines "/proc/net/arp" w with
    | (Ok (lines, _), w') => (Ok (foldl arp_row ∅ (tail lines) !! ip), w')
    | (Raised, w') => (Ok None, w')
    end.
Proof.
  unfold mac_for_ip, mbind, M_bind at 1. rewrite read_arp_table_run.
  destruct (sys_read_lines "/proc/net/arp" w) as [[[lines failed]|] w']; reflexivity.
Qed.

Lemma mac_for_ip_valid ip w mac w' :
  mac_for_ip ip w = (Ok (Some mac), w') → mac ≠ EmptyString ∧ mac ≠ ZERO_MAC.
Proof.
  rewrite mac_for_ip_run.
  destruct (sys_read_lines "/proc/net/arp" w) as [[[lines failed]|] w1];
    intros [= Hm _]; try done.
  eapply (arp_rows_valid (tail lines) ∅); [|exact Hm].
  intros ? ? Hempty. by rewrite lookup_empty in Hempty.
Qed.

Lemma neighbor_hit_run ip w :
  neighbor_hit ip w =
    match mac_for_ip ip w with
    | (Ok mac, w') => (Ok (bool_decide (is_Some mac)), w')
    | (Raised, w') => (Raised, w')
    end.
Proof.
  unfold neighbor_hit, mbind, M_bind at 1.
  destruct (mac_for_ip ip w) as [[[mac|]|] w'] eqn:Hm; try reflexivity.
  apply mac_for_ip_valid in Hm as [Hne _].
  destruct mac; [done|reflexivity].
Qed.

End Neighbours.

(** ** Python strings *)

Section Strings.

Lemma split_head_nonspace c s :
  PyStr.is_space c = false → PyStr.split (String c s) ≠ [].
Proof.
  intros Hc. simpl. rewrite Hc.
  destruct s as [|d s']; [done|].
  destruct (PyStr.is_space d); [done|].
  by destruct (PyStr.split (String d s')).
Qed.

(** The words of [s.split()] are never empty. *)
Lemma split_words_nonempty s word :
  word ∈ PyStr.split s → word ≠ EmptyString.
Proof.
  revert word. induction s as [|c s IH]; intros word; simpl.
  - by intros ?%elem_of_nil.
  - destruct (PyStr.is_space c); [by apply IH|].
    destruct s as [|d s'].
    + by intros ->%list_elem_of_singleton.
    + destruct (PyStr.is_space d).
      * intros [->|?]%elem_of_cons; [done|by apply IH].
      * destruct (PyStr.split (String d s')) as [|w ws].
        -- by intros ->%list_elem_of_singleton.
        -- intros [->|?]%elem_of_cons; [done|]. apply IH. by right.
Qed.

Lemma prefix_head a sub c s :
  String.prefix (String a sub) (String c s) = true → a = c.
Proof. simpl. by destruct (ascii_dec a c). Qed.

(** A string that contains a word starting with a non-space character
    splits into at least one word. *)
Lemma contains_split a sub s :
  PyStr.is_space a = false →
  PyStr.contains (String a sub) s = true → PyStr.split s ≠ [].
Proof.
  intros Ha. induction s as [|c s IH].
  - simpl. done.
  - intros Hc.
    destruct (PyStr.is_space c) eqn:Hsp.
    + simpl. rewrite Hsp. apply IH.
      cbn [PyStr.contains] in Hc. apply orb_true_iff in Hc as [Hp|Hc]; [|done].
      apply prefix_head in Hp. congruence.
    + by apply split_head_nonspace.
Qed.

End Strings.

Section NeighbourLookup.

Context {W : Type} `{!Platform W}.

(** C7 (as amended): a neighbour-table lookup never raises and never
    returns the all-zero hardware address [00:00:00:00:00:00] (nor an empty
    one).  It is absent when the table cannot be opened, and, over the
    rows that were read after the header line — up to the end of the file
    or up to a failure of the read — when no row starts with the address
    and when every row that starts with the address carries the all-zero
    hardware address; it is the hardware address of the last row read
    that starts with the address and carries another one. *)
Theorem neighbor_lookup_never_zero (ip : string) (w : W) :
  ∃ r w',
    mac_for_ip ip w = (Ok r, w')
    ∧ (∀ mac, r = Some mac → mac ≠ ZERO_MAC ∧ mac ≠ EmptyString)
    ∧ ((sys_read_lines "/proc/net/arp" w).1 = Raised → r = None)
    ∧ (∀ lines failed,
         (sys_read_lines "/proc/net/arp" w).1 = Ok (lines, failed) →
         ((∀ line, line ∈ tail lines → PyStr.split line !! 0%nat ≠ Some ip) → r = None)
         ∧ ((∀ line, line ∈ tail lines →
               PyStr.split line !! 0%nat = Some ip →
               PyStr.split line !! 3%nat = Some ZERO_MAC) → r = None)
         ∧ (∀ pre line post mac,
              tail lines = pre ++ line :: post →
              PyStr.split line !! 0%nat = Some ip →
              PyStr.split line !! 3%nat = Some mac →
              mac ≠ ZERO_MAC →
              (∀ l, l ∈ post → PyStr.split l !! 0%nat ≠ Some ip) →
              r = Some mac)).
Proof.
  pose proof (mac_for_ip_run ip w) as Hrun.
  pose proof (mac_for_ip_valid ip w) as Hvalid.
  destruct (sys_read_lines "/proc/net/arp" w) as [[[lines failed]|] w1] eqn:Hread;
    simpl in *.
  - exists (foldl arp_row ∅ (tail lines) !! ip), w1.
    split; [done|]. split.
    { intros mac Hm. rewrite Hm in Hrun. by destruct (Hvalid _ _ Hrun). }
    split; [done|].
    intros lines' failed' [= -> ->]. repeat split.
    + intros Hmiss. rewrite arp_rows_other; [apply lookup_empty|].
      intros line Hl H0. by destruct (Hmiss line Hl).
    + intros Hzero. rewrite arp_rows_other; [apply lookup_empty|done].
    + intros pre line post mac Hrows H0 H3 Hnz Hpost.
      rewrite Hrows, foldl_app. simpl.
      rewrite arp_rows_other.
      * apply arp_row_binds; try done.
        eapply split_words_nonempty, list_elem_of_lookup_2, H3.
      * intros l Hl Hl0. by destruct (Hpost l Hl).
  - exists None, w1. repeat split; try done.
Qed.

End NeighbourLookup.

(** ** The liveness verdict *)

Section Liveness.

Context {W : Type} `{!Platform W}.

(** The nudge swallows every failure. *)
Lemma udp_nudge_completes ip port w : ∃ w', udp_nudge ip port w = (Ok (), w').
Proof.
  unfold udp_nudge, try_except, mbind, M_bind, mret, M_ret.
  destruct (sys_socket SOCK_DGRAM w) as [[s|] w1]; [|by eexists].
  destruct (sys_settimeout s 50 w1) as [[[]|] w2]; [|by eexists].
  destruct (sys_sendto s "x" ip port w2) as [[[]|] w3]; [|by eexists].
  destruct (sys_close s w3) as [[[]|] w4]; by eexists.
Qed.

Lemma bind_run {A B} (m : M W A) (k : A → M W B) w :
  (m ≫= k) w =
    match m w with
    | (Ok a, w') => k a w'
    | (Raised, w') => (Raised, w')
    end.
Proof. reflexivity. Qed.

Lemma first_positive_app (pre : list (M W bool)) p post w1 w2 w3 :
  negatives pre w1 w2 → p w2 = (Ok true, w3) →
  first_positive (pre ++ p :: post) w1 = (Ok true, w3).
Proof.
  intros Hneg Hp. induction Hneg as [w|q qs w wa wb Hq Hqs IH]; simpl.
  - unfold mbind, M_bind. by rewrite Hp.
  - unfold mbind, M_bind at 1. rewrite Hq. by apply IH.
Qed.

Lemma first_positive_none (ps : list (M W bool)) w1 w2 :
  negatives ps w1 w2 → first_positive ps w1 = (Ok false, w2).
Proof.
  induction 1 as [w|q qs w wa wb Hq Hqs IH]; simpl; [done|].
  unfold mbind, M_bind at 1. by rewrite Hq.
Qed.

(** The port loop followed by the later probes is the short-circuit
    evaluation of the port probes followed by the later ones. *)
Lemma any_port_open_then ip ports (later : list (M W bool)) w :
  (open ← any_port_open ip ports;
   if open : bool then mret true else first_positive later) w
  = first_positive (map (λ p, tcp_check ip p 500) ports ++ later) w.
Proof.
  revert w. induction ports as [|p ports IH]; intros w; [done|].
  specialize (IH : ∀ w, _).
  simpl. unfold mbind, M_bind in *.
  destruct (tcp_check ip p 500 w) as [[[]|] w1]; [done| |done].
  apply IH.
Qed.

Lemma is_alive_first_positive ip w :
  is_alive ip w = (udp_nudge ip 1;; first_positive (liveness_probes ip)) w.
Proof.
  unfold is_alive, liveness_probes. rewrite !(bind_run (udp_nudge ip 1)).
  destruct (udp_nudge ip 1 w) as [[[]|] w1]; [|done].
  cbn [app first_positive]. rewrite !(bind_run (neighbor_hit ip)).
  destruct (neighbor_hit ip w1) as [[[]|] w2]; [done| |done].
  rewrite !(bind_run (ping ip)).
  destruct (ping ip w2) as [[[]|] w3]; [done| |done].
  apply (any_port_open_then ip PORTS [nmb_has_name ip; neighbor_hit ip]).
Qed.

End Liveness.

Section LivenessVerdict.

Context {W : Type} `{!Platform W}.

(** C1: [is_alive] fires the nudge, whose outcome is ignored, and then
    evaluates, in this order and stopping at the first positive one, the
    neighbour lookup, the ping, the TCP connection to each port of [PORTS]
    in the declared order, the NetBIOS query and a second neighbour lookup.
    It returns true at the first positive probe, without running a later
    one, and false when all of them are negative; an address with a
    neighbour entry yields true whatever the other probes would say. *)
Theorem is_alive_short_circuit (ip : string) (w : W) :
  ∃ w1,
    udp_nudge ip 1 w = (Ok (), w1)
    ∧ is_alive ip w = first_positive (liveness_probes ip) w1
    ∧ (∀ pre p post w2 w3,
         liveness_probes ip = pre ++ p :: post →
         negatives pre w1 w2 → p w2 = (Ok true, w3) →
         is_alive ip w = (Ok true, w3))
    ∧ (∀ w2, negatives (liveness_probes ip) w1 w2 → is_alive ip w = (Ok false, w2))
    ∧ (∀ mac w2, mac_for_ip ip w1 = (Ok (Some mac), w2) →
         is_alive ip w = (Ok true, w2)).
Proof.
  destruct (udp_nudge_completes ip 1 w) as [w1 Hnudge].
  assert (is_alive ip w = first_positive (liveness_probes ip) w1) as Hrun.
  { rewrite is_alive_first_positive, bind_run. by rewrite Hnudge. }
  exists w1. split; [done|]. split; [done|]. rewrite Hrun. repeat split.
  - intros pre p post w2 w3 -> Hneg Hp. by eapply first_positive_app.
  - intros w2 Hneg. by apply first_positive_none.
  - intros mac w2 Hmac.
    apply (first_positive_app [] (neighbor_hit ip) _ w1 w1 w2); [constructor|].
    rewrite neighbor_hit_run, Hmac. reflexivity.
Qed.

End LivenessVerdict.

Lemma is_alive_short_circuit_witness :
  (is_alive "192.168.1.7" home).1 = Ok true
  ∧ Sim.trace (is_alive "192.168.1.7" home).2
    = [Sim.EvSocket SOCK_DGRAM (Some 3%nat); Sim.EvSendto 3%nat "192.168.1.7" 1;
       Sim.EvClose 3%nat; Sim.EvReadLines "/proc/net/arp"]
  ∧ (is_alive "192.168.1.40" home).1 = Ok true
  ∧ (is_alive "192.168.1.200" home).1 = Ok false.
Proof.
  assert (∃ w2, is_alive "192.168.1.7" home = (Ok true, w2)
                ∧ (mac_for_ip "192.168.1.7" (udp_nudge "192.168.1.7" 1 home).2).2 = w2)
    as (w2 & Hrun & Hw2).
  { destruct (is_alive_short_circuit "192.168.1.7" home)
      as (w1 & Hnudge & _ & _ & _ & Hmac).
    rewrite Hnudge. eexists. split; [|reflexivity].
    apply (Hmac "b8:27:eb:11:22:33").
    vm_compute in Hnudge. injection Hnudge as <-. vm_compute. reflexivity. }
  rewrite Hrun. subst w2. split; [reflexivity|]. split; [vm_compute; reflexivity|].
  split.
  - destruct (is_alive_short_circuit "192.168.1.40" home)
      as (w1 & Hnudge & _ & Hpos & _ & _).
    vm_compute in Hnudge. injection Hnudge as <-.
    erewrite (Hpos [neighbor_hit "192.168.1.40"; ping "192.168.1.40";
                    tcp_check "192.168.1.40" 21 500]
                   (tcp_check "192.168.1.40" 22 500)); [reflexivity|reflexivity| |].
    + eapply negatives_cons; [vm_compute; reflexivity|].
      eapply negatives_cons; [vm_compute; reflexivity|].
      eapply negatives_cons; [vm_compute; reflexivity|].
      apply negatives_nil.
    + vm_compute. reflexivity.
  - destruct (is_alive_short_circuit "192.168.1.200" home)
      as (w1 & Hnudge & _ & _ & Hneg & _).
    vm_compute in Hnudge. injection Hnudge as <-.
    erewrite Hneg; [reflexivity|].
    repeat (eapply negatives_cons; [vm_compute; reflexivity|]).
    apply negatives_nil.
Defined.

(** ** Lines of a tool's output *)

Section Lines.

Lemma splitlines_nil s : PyStr.splitlines s = [] → s = EmptyString.
Proof.
  destruct s as [|c s]; [done|]. simpl.
  destruct (PyStr.is_linebreak c); [done|].
  by destruct (PyStr.splitlines s).
Qed.

(** A word without line boundaries starts a text exactly when it starts
    the first line of the text. *)
Lemma prefix_first_line s : ∀ l ls word,
  PyStr.splitlines s = l :: ls → no_linebreak word = true →
  String.prefix word s = String.prefix word l.
Proof.
  induction s as [|c s IH]; intros l ls word Hs Hword; [done|].
  destruct word as [|a word]; [by destruct l|].
  simpl in Hword. apply andb_true_iff in Hword as [Ha Hword].
  apply negb_true_iff in Ha.
  simpl in Hs. destruct (PyStr.is_linebreak c) eqn:Hc.
  - injection Hs as <- _. simpl.
    destruct (ascii_dec a c) as [->|]; [congruence|done].
  - destruct (PyStr.splitlines s) as [|l' ls'] eqn:Hs'.
    + injection Hs as <- _. by rewrite (splitlines_nil s Hs').
    + injection Hs as <- _. simpl.
      destruct (ascii_dec a c); [|done]. by eapply IH.
Qed.

Lemma contains_splitlines_le a word n : ∀ s,
  (String.length s ≤ n)%nat → no_linebreak (String a word) = true →
  PyStr.contains (String a word) s
  = existsb (PyStr.contains (String a word)) (PyStr.splitlines s).
Proof.
  induction n as [|n IH]; intros s Hlen Hword.
  { destruct s; [done|simpl in Hlen; lia]. }
  destruct s as [|c s]; [done|].
  simpl in Hlen.
  assert (PyStr.is_linebreak a = false) as Ha.
  { simpl in Hword. apply andb_true_iff in Hword as [Ha _].
    by apply negb_true_iff in Ha. }
  cbn [PyStr.contains PyStr.splitlines].
  destruct (PyStr.is_linebreak c) eqn:Hc.
  - assert (String.prefix (String a word) (String c s) = false) as ->.
    { simpl. destruct (ascii_dec a c) as [->|]; [congruence|done]. }
    cbn [existsb orb PyStr.contains String.prefix].
    destruct s as [|d s']; [done|].
    destruct ((PyStr.code c =? 13)%N && (PyStr.code d =? 10)%N) eqn:Hcrlf.
    + apply andb_true_iff in Hcrlf as [_ Hd]. apply N.eqb_eq in Hd.
      cbn [PyStr.contains].
      assert (String.prefix (String a word) (String d s') = false) as ->.
      { simpl. destruct (ascii_dec a d) as [->|]; [|done].
        unfold PyStr.is_linebreak in Ha. rewrite Hd in Ha. done. }
      apply IH; [simpl in Hlen; lia|done].
    + apply IH; [lia|done].
  - rewrite (IH s) by (done || lia).
    destruct (PyStr.splitlines s) as [|l ls] eqn:Hs.
    + rewrite (splitlines_nil s Hs). simpl. by rewrite !orb_false_r.
    + cbn [existsb PyStr.contains].
      assert (String.prefix (String a word) (String c s)
              = String.prefix (String a word) (String c l)) as ->.
      { simpl. destruct (ascii_dec a c); [|done].
        eapply prefix_first_line; [done|].
        simpl in Hword. by apply andb_true_iff in Hword as [_ ?]. }
      by rewrite orb_assoc.
Qed.

(** A non-empty word without line boundaries occurs in a text exactly when
    it occurs in one of its lines. *)
Lemma contains_splitlines a word s :
  no_linebreak (String a word) = true →
  PyStr.contains (String a word) s
  = existsb (PyStr.contains (String a word)) (PyStr.splitlines s).
Proof. apply (contains_splitlines_le a word (String.length s)). lia. Qed.

End Lines.

(** ** NetBIOS *)

Section NetBIOS.

Context {W : Type} `{!Platform W}.

(** C3 (as amended): [nmb_has_name] never raises; it returns true exactly
    when the status query succeeds and some line of its output contains
    [<00>], group record or not — so it is true whenever the output has a
    workstation-service record — and false when the query fails. *)
Theorem nmb_has_name_any_00_record (ip : string) (w : W) :
  match sys_check_output ["nmblookup"; "-A"; ip] w with
  | (Ok out, w') =>
      nmb_has_name ip w
      = (Ok (existsb (PyStr.contains "<00>") (PyStr.splitlines out)), w')
      ∧ (has_workstation_name out = true → nmb_has_name ip w = (Ok true, w'))
  | (Raised, w') => nmb_has_name ip w = (Ok false, w')
  end.
Proof.
  unfold nmb_has_name, try_except. rewrite bind_run.
  destruct (sys_check_output ["nmblookup"; "-A"; ip] w) as [[out|] w']; [|done].
  unfold mret, M_ret. rewrite (contains_splitlines "<" "00>" out eq_refl).
  split; [done|]. intros Hrec. do 2 f_equal.
  unfold has_workstation_name in Hrec.
  apply existsb_exists in Hrec as (line & Hin & Hline).
  apply existsb_exists. exists line. split; [done|].
  unfold workstation_record in Hline. by apply andb_true_iff in Hline as [? _].
Qed.

Lemma netbios_name_loop_run lines (w : W) :
  netbios_name_loop lines w = (Ok (first_candidate lines), w).
Proof.
  induction lines as [|line rest IH]; [done|].
  cbn [netbios_name_loop first_candidate]. unfold netbios_candidate, name_line.
  destruct (PyStr.contains "<00>" (PyStr.strip line)) eqn:Hrec; [|done].
  destruct (negb (PyStr.contains "group" (PyStr.lower (PyStr.strip line)))); [|done].
  cbn [andb].
  destruct (PyStr.split (PyStr.strip line)) as [|name words] eqn:Hsplit.
  { by destruct (contains_split "<" "00>" (PyStr.strip line) eq_refl Hrec). }
  by destruct (PyStr.truthy name && negb (String.eqb name "name_query")).
Qed.

Lemma netbios_candidate_name line name :
  netbios_candidate line = Some name →
  name ≠ EmptyString ∧ name ≠ "name_query"
  ∧ name_line (PyStr.strip line) = true
  ∧ PyStr.split (PyStr.strip line) !! 0%nat = Some name.
Proof.
  unfold netbios_candidate.
  destruct (name_line (PyStr.strip line)); [|done].
  destruct (PyStr.split (PyStr.strip line)) as [|word words]; [done|].
  destruct (PyStr.truthy word) eqn:Hword; [|done].
  destruct (String.eqb word "name_query") eqn:Hq; [done|].
  intros [= <-]. repeat split; try done.
  - by destruct word.
  - by apply String.eqb_neq.
Qed.

Lemma first_candidate_first lines name :
  first_candidate lines = Some name ↔
  ∃ pre line post,
    lines = pre ++ line :: post
    ∧ netbios_candidate line = Some name
    ∧ (∀ l, l ∈ pre → netbios_candidate l = None).
Proof.
  induction lines as [|l lines IH]; simpl.
  - split; [done|]. intros (pre & line & post & Heq & _). by destruct pre.
  - destruct (netbios_candidate l) as [n|] eqn:Hl.
    + split.
      * intros [= ->]. exists [], l, lines. repeat split; [done|].
        by intros ? ?%elem_of_nil.
      * intros ([|l' pre] & line & post & Heq & Hline & Hpre); simplify_eq/=.
        -- congruence.
        -- rewrite Hpre in Hl; [done|by left].
    + rewrite IH. split.
      * intros (pre & line & post & -> & Hline & Hpre).
        exists (l :: pre), line, post. repeat split; [done|].
        intros l' [->|?]%elem_of_cons; [done|by apply Hpre].
      * intros ([|l' pre] & line & post & Heq & Hline & Hpre); simplify_eq/=.
        exists pre, line, post. repeat split; [done|].
        intros ? ?. apply Hpre. by right.
Qed.


End NetBIOS.



(** On a host that registers group names only, the status answer has no
    workstation record and [nmb_has_name] is true all the same. *)
Lemma nmb_has_name_counts_group_records :
  (sys_check_output ["nmblookup"; "-A"; "192.168.1.20"] home).1 = Ok nmb_groups_only
  ∧ has_workstation_name nmb_groups_only = false
  ∧ (nmb_has_name "192.168.1.20" home).1 = Ok true
  ∧ ¬ ((nmb_has_name "192.168.1.20" home).1 = Ok true
       ↔ has_workstation_name nmb_groups_only = true).
Proof.
  repeat split; try (vm_compute; reflexivity).
  intros [Hhit _]. specialize (Hhit eq_refl). vm_compute in Hhit. discriminate.
Qed.

(** ** Sockets and exceptions *)

Section Sockets.

Context {W : Type} `{!Platform W}.

(** When [connect_ex] returns a code, the socket is closed before
    [tcp_check] returns. *)
Lemma tcp_check_returns ip port timeout w s w1 w2 r w3 :
  sys_socket SOCK_STREAM w = (Ok s, w1) →
  sys_settimeout s timeout w1 = (Ok (), w2) →
  sys_connect_ex s ip port w2 = (Ok r, w3) →
  tcp_check ip port timeout w =
    match sys_close s w3 with
    | (Ok (), w4) => (Ok (r =? 0), w4)
    | (Raised, w4) => (Ok false, w4)
    end.
Proof.
  intros Hs Ht Hc. unfold tcp_check, try_except. rewrite !bind_run, Hs, bind_run, Ht.
  rewrite bind_run, Hc, bind_run.
  by destruct (sys_close s w3) as [[[]|] w4].
Qed.

(** When [connect_ex] raises, [tcp_check] returns false from the world the
    failed call left: [sys_close] is not called. *)
Lemma tcp_check_raised ip port timeout w s w1 w2 w3 :
  sys_socket SOCK_STREAM w = (Ok s, w1) →
  sys_settimeout s timeout w1 = (Ok (), w2) →
  sys_connect_ex s ip port w2 = (Raised, w3) →
  tcp_check ip port timeout w = (Ok false, w3).
Proof.
  intros Hs Ht Hc. unfold tcp_check, try_except. rewrite !bind_run, Hs, bind_run, Ht.
  by rewrite bind_run, Hc.
Qed.

(** A failure to create the socket escapes [tcp_check]. *)
Lemma tcp_check_no_socket ip port timeout w w1 :
  sys_socket SOCK_STREAM w = (Raised, w1) →
  tcp_check ip port timeout w = (Raised, w1).
Proof. intros Hs. unfold tcp_check. by rewrite bind_run, Hs. Qed.

Lemma ping_never_raises ip : never_raises (ping ip).
Proof.
  intros w. unfold ping, try_except. rewrite bind_run.
  by destruct (sys_run _ w) as [[r|] w1].
Qed.

Lemma nmb_has_name_never_raises ip : never_raises (nmb_has_name ip).
Proof.
  intros w. unfold nmb_has_name, try_except. rewrite bind_run.
  by destruct (sys_check_output _ w) as [[r|] w1].
Qed.

Lemma neighbor_hit_never_raises ip : never_raises (neighbor_hit ip).
Proof.
  intros w. rewrite neighbor_hit_run, mac_for_ip_run.
  by destruct (sys_read_lines _ w) as [[[lines failed]|] w1].
Qed.

Lemma tcp_check_never_raises ip port timeout :
  never_raises (sys_socket SOCK_STREAM) →
  (∀ s, never_raises (sys_settimeout s timeout)) →
  never_raises (tcp_check ip port timeout).
Proof.
  intros Hsock Htime w. unfold tcp_check, try_except. rewrite !bind_run.
  specialize (Hsock w). destruct (sys_socket SOCK_STREAM w) as [[s|] w1]; [|done].
  rewrite bind_run.
  specialize (Htime s w1). destruct (sys_settimeout s timeout w1) as [[[]|] w2]; [|done].
  rewrite bind_run. destruct (sys_connect_ex s ip port w2) as [[r|] w3]; [|done].
  rewrite bind_run. by destruct (sys_close s w3) as [[[]|] w4].
Qed.

Lemma first_positive_never_raises (probes : list (M W bool)) :
  Forall never_raises probes → never_raises (first_positive probes).
Proof.
  induction 1 as [|p ps Hp _ IH]; intros w; [done|].
  simpl. rewrite bind_run. specialize (Hp w).
  destruct (p w) as [[[]|] w1]; [done|apply IH|done].
Qed.

(** Creating the TCP socket (and setting its time-out) is the only way an
    exception leaves [is_alive]. *)
Lemma is_alive_raises_only_from_socket ip :
  never_raises (sys_socket SOCK_STREAM) →
  (∀ s, never_raises (sys_settimeout s 500)) →
  never_raises (is_alive ip).
Proof.
  intros Hsock Htime w. rewrite is_alive_first_positive, bind_run.
  destruct (udp_nudge_completes ip 1 w) as [w1 ->].
  apply first_positive_never_raises. unfold liveness_probes.
  repeat first [apply Forall_cons; split | apply Forall_app; split | apply Forall_nil];
    auto using ping_never_raises, nmb_has_name_never_raises, neighbor_hit_never_raises.
  all: by apply tcp_check_never_raises.
Qed.

End Sockets.

Lemma filter_other (s : fd) (fds : list fd) :
  s ∉ fds → filter (λ x, x ≠ s) fds = fds.
Proof.
  induction fds as [|x fds IH]; [done|].
  intros [Hx Hfds]%not_elem_of_cons.
  rewrite filter_cons_True by done. by rewrite IH.
Qed.

(** From a world where connections are answered with a code, [tcp_check]
    on the scripted platform leaves the open descriptors as they were. *)
Lemma sim_tcp_check_closes ip port (w : Sim.world) :
  (length (Sim.open_fds w) < Sim.fd_limit w)%nat →
  Sim.next_fd w ∉ Sim.open_fds w →
  existsb (String.eqb ip) (Sim.unresolvable w) = false →
  Sim.open_fds (tcp_check ip port 500 w).2 = Sim.open_fds w.
Proof.
  intros Hlimit Hfresh Hres.
  unfold tcp_check, try_except, mbind, M_bind, mret, M_ret.
  cbn [sys_socket sys_settimeout sys_connect_ex sys_close Sim.platform].
  unfold Sim.socket, Sim.connect_ex, Sim.close, Sim.log, Sim.with_fds.
  destruct (Nat.ltb_spec (length (Sim.open_fds w)) (Sim.fd_limit w)); [|lia].
  cbn. rewrite Hres.
  pose proof (filter_other _ _ Hfresh) as Hkeep.
  destruct (existsb _ (Sim.accepting w)); cbn;
    (case_decide; [done|]); exact Hkeep.
Qed.

(** C2: called on an address for which [connect_ex] raises (here an IPv6
    literal handed to the IPv4 socket), [tcp_check] answers false and
    returns with the socket it created still open: [sys_close] is reached
    only when [connect_ex] returns. *)
Theorem tcp_check_leaks_on_exception :
  (tcp_check "fe80::1" 21 500 home).1 = Ok false
  ∧ Sim.open_fds home = []
  ∧ Sim.open_fds (tcp_check "fe80::1" 21 500 home).2 = [3%nat]
  ∧ Sim.trace (tcp_check "fe80::1" 21 500 home).2
    = [Sim.EvSocket SOCK_STREAM (Some 3%nat); Sim.EvConnect 3%nat "fe80::1" 21].
Proof. vm_compute. done. Qed.

(** C4: with no descriptor left, the nudge, the neighbour lookup and the
    ping of an absent host degrade to negative results, and the failure to
    create the first TCP socket leaves [is_alive] as an exception. *)
Theorem is_alive_raises_without_descriptors :
  (is_alive "192.168.1.200" exhausted).1 = Raised
  ∧ Sim.trace (is_alive "192.168.1.200" exhausted).2
    = [Sim.EvSocket SOCK_DGRAM None;
       Sim.EvReadLines "/proc/net/arp";
       Sim.EvRun ["ping"; "-c"; "1"; "-W"; "1"; "192.168.1.200"];
       Sim.EvSocket SOCK_STREAM None].
Proof. vm_compute. done. Qed.

(** ** The port scan *)

Section PortScan.

Context {W : Type} `{!Platform W}.

Lemma collect_open_from (acc : list Z) pos :
  foldl (λ (open_ports : list Z) (po : Z * bool),
           if po.2 then open_ports ++ [po.1] else open_ports) acc pos
  = acc ++ foldl (λ (open_ports : list Z) (po : Z * bool),
                    if po.2 then open_ports ++ [po.1] else open_ports) [] pos.
Proof.
  revert acc. induction pos as [|[p ok] pos IH]; intros acc; simpl.
  - by rewrite app_nil_r.
  - rewrite IH, (IH (if ok then _ else _)). destruct ok; [|done].
    by rewrite <-app_assoc.
Qed.

Lemma collect_open_cons p ports ok results :
  collect_open (p :: ports) (ok :: results)
  = (if ok then [p] else []) ++ collect_open ports results.
Proof.
  unfold collect_open. simpl. rewrite collect_open_from. by destruct ok.
Qed.

Lemma collect_open_sublist ports results :
  sublist (collect_open ports results) ports.
Proof.
  revert results. induction ports as [|p ports IH]; intros [|ok results];
    try apply sublist_nil_l.
  rewrite collect_open_cons. destruct ok; simpl.
  - apply sublist_skip, IH.
  - apply sublist_cons, IH.
Qed.

(** A port is reported exactly when the check at its position succeeded. *)
Lemma collect_open_elem ports results p :
  NoDup ports →
  p ∈ collect_open ports results ↔
  ∃ i : nat, ports !! i = Some p ∧ results !! i = Some true.
Proof.
  revert results. induction ports as [|q ports IH]; intros [|ok results] Hnd.
  1-3: split; [by intros ?%elem_of_nil|by intros ([|i] & ? & ?)].
  apply NoDup_cons in Hnd as [Hq Hnd].
  rewrite collect_open_cons, elem_of_app, (IH results Hnd). split.
  - intros [Hp|(i & Hi & Hr)].
    + destruct ok; [|by apply elem_of_nil in Hp].
      apply list_elem_of_singleton in Hp as ->. by exists 0%nat.
    + by exists (S i).
  - intros ([|i] & Hi & Hr); simplify_eq/=.
    + left. by apply list_elem_of_singleton.
    + right. by exists i.
Qed.

Lemma collect_open_closed ports results :
  (∀ ok, ok ∈ results → ok = false) → collect_open ports results = [].
Proof.
  revert results. induction ports as [|p ports IH]; intros [|ok results] Hclosed;
    try done.
  rewrite collect_open_cons, IH.
  - rewrite (Hclosed ok); [done|by left].
  - intros ? ?. apply Hclosed. by right.
Qed.

Lemma PORTS_NoDup : NoDup PORTS.
Proof. apply (bool_decide_unpack (NoDup PORTS)). by vm_compute. Qed.

Lemma scan_ports_run ip w found w' :
  scan_ports ip w = (Ok found, w') →
  ∃ results,
    executor_map (λ p, tcp_check ip p 500) PORTS w = (Ok results, w')
    ∧ found = collect_open PORTS results.
Proof.
  unfold scan_ports. rewrite bind_run.
  destruct (executor_map _ PORTS w) as [[results|] w1]; [|done].
  intros [= <- <-]. by exists results.
Qed.

(** C5: whatever the port checks answer, the ports reported for a host
    form a subsequence of [PORTS] in its declared order: each is a port of
    the list, none is repeated, they are at most as many as the list has,
    and they are exactly the ports whose check succeeded; no successful
    check gives the empty result. *)
Theorem scan_ports_ordered_subset :
  (∀ results,
     sublist (collect_open PORTS results) PORTS
     ∧ NoDup (collect_open PORTS results)
     ∧ (length (collect_open PORTS results) ≤ length PORTS)%nat
     ∧ (∀ p, p ∈ collect_open PORTS results → p ∈ PORTS)
     ∧ (∀ p, p ∈ collect_open PORTS results ↔
             ∃ i : nat, PORTS !! i = Some p ∧ results !! i = Some true))
  ∧ (∀ results, (∀ ok, ok ∈ results → ok = false) → collect_open PORTS results = [])
  ∧ (∀ ip (w : W) found w',
       scan_ports ip w = (Ok found, w') →
       sublist found PORTS ∧ NoDup found ∧ (length found ≤ length PORTS)%nat
       ∧ (∀ p, p ∈ found → p ∈ PORTS)).
Proof.
  assert (∀ results,
     sublist (collect_open PORTS results) PORTS
     ∧ NoDup (collect_open PORTS results)
     ∧ (length (collect_open PORTS results) ≤ length PORTS)%nat
     ∧ (∀ p, p ∈ collect_open PORTS results → p ∈ PORTS)) as Hsub.
  { intros results. pose proof (collect_open_sublist PORTS results) as Hsub.
    repeat split; [done| | |].
    - eapply sublist_NoDup; [apply PORTS_NoDup|done].
    - by apply sublist_length.
    - intros p Hp. by eapply elem_of_sublist. }
  split; [|split].
  - intros results. destruct (Hsub results) as (? & ? & ? & ?).
    repeat split; try done; by apply collect_open_elem, PORTS_NoDup.
  - intros results. apply collect_open_closed.
  - intros ip w found w' (results & _ & ->)%scan_ports_run. apply Hsub.
Qed.

End PortScan.

Lemma scan_ports_ordered_subset_witness :
  scan_ports "192.168.1.40" home
  = (Ok [22; 8080], (scan_ports "192.168.1.40" home).2)
  ∧ sublist [22; 8080] PORTS
  ∧ (scan_ports "192.168.1.7" home).1 = Ok [].
Proof.
  destruct (scan_ports_ordered_subset (W := Sim.world)) as (_ & Hnone & Hscan).
  assert (scan_ports "192.168.1.40" home
          = (Ok [22; 8080], (scan_ports "192.168.1.40" home).2)) as Hrun
    by (vm_compute; reflexivity).
  split; [done|]. split.
  - by destruct (Hscan _ _ _ _ Hrun) as [? _].
  - unfold scan_ports. rewrite bind_run.
    assert (executor_map (λ p, tcp_check "192.168.1.7" p 500) PORTS home
            = (Ok (replicate 16 false),
               (executor_map (λ p, tcp_check "192.168.1.7" p 500) PORTS home).2)) as ->
      by (vm_compute; reflexivity).
    cbn [fst mret M_ret]. rewrite Hnone; [reflexivity|].
    intros ok Hok. by apply elem_of_replicate in Hok as [-> _].
Defined.

(** ** Vendor lookup *)

Section Vendors.

Context {W : Type} `{!Platform W}.

(** After the merge, a prefix holds the value of some item of the file
    that normalises to it, or, when no item does, what it held before. *)
Lemma merge_oui_lookup data : ∀ m p,
  (∃ k v, (k, v) ∈ data ∧ oui_prefix k = p ∧ merge_oui m data !! p = Some v)
  ∨ ((∀ kv, kv ∈ data → oui_prefix kv.1 ≠ p) ∧ merge_oui m data !! p = m !! p).
Proof.
  induction data as [|[k v] data IH]; intros m p.
  { right. split; [by intros ? ?%elem_of_nil|done]. }
  unfold merge_oui in *. simpl.
  destruct (IH (<[oui_prefix k := v]> m) p) as [(k' & v' & Hin & Hk & Hm)|[Hnone Hm]].
  - left. exists k', v'. split; [by right|done].
  - destruct (decide (oui_prefix k = p)) as [Hk|Hk].
    + left. exists k, v. split; [by left|]. split; [done|].
      rewrite Hm, Hk. apply lookup_insert_eq.
    + right. split.
      * intros kv [->|?]%elem_of_cons; [done|by apply Hnone].
      * rewrite Hm. by apply lookup_insert_ne.
Qed.

(** The last item of the file that normalises to a prefix decides it. *)
Lemma merge_oui_last m pre k v post :
  (∀ kv, kv ∈ post → oui_prefix kv.1 ≠ oui_prefix k) →
  merge_oui m (pre ++ (k, v) :: post) !! oui_prefix k = Some v.
Proof.
  intros Hpost. unfold merge_oui. rewrite foldl_app. simpl.
  destruct (merge_oui_lookup post
              (<[oui_prefix k := v]> (merge_oui m pre)) (oui_prefix k))
    as [(k' & v' & Hin & Hk & _)|[_ Hm]].
  - by destruct (Hpost _ Hin).
  - unfold merge_oui in Hm. rewrite Hm. apply lookup_insert_eq.
Qed.

Lemma load_oui_map_run w :
  load_oui_map w =
    match sys_isfile OUI_LOCAL_FILE w with
    | (Ok true, w1) =>
        match sys_json_load OUI_LOCAL_FILE w1 with
        | (Ok data, w2) => (Ok (merge_oui OUI_FALLBACK data), w2)
        | (Raised, w2) => (Ok OUI_FALLBACK, w2)
        end
    | (_, w1) => (Ok OUI_FALLBACK, w1)
    end.
Proof.
  unfold load_oui_map, try_except. rewrite bind_run.
  destruct (sys_isfile OUI_LOCAL_FILE w) as [[[]|] w1]; try done.
  rewrite bind_run.
  by destruct (sys_json_load OUI_LOCAL_FILE w1) as [[data|] w2].
Qed.

Lemma vendor_from_mac_lookup OUI_MAP mac :
  mac ≠ EmptyString →
  vendor_from_mac OUI_MAP (Some mac) = default "Unknown" (OUI_MAP !! oui_prefix mac).
Proof. intros Hmac. unfold vendor_from_mac. by destruct mac. Qed.

(** C6: the table is the built-in one, overlaid with the items of the
    external file when it can be read, each under its normalised key, a
    later item replacing an earlier one and any item replacing a built-in
    entry.  On it, no or an empty hardware address gives the dash, any
    other address gives the entry of its normalised six-character prefix,
    and "Unknown" when there is none; under the unmodified built-in table
    B8:27:EB:11:22:33 is a Raspberry Pi. *)
Theorem vendor_lookup_merged (w : W) :
  ∃ OUI_MAP w',
    load_oui_map w = (Ok OUI_MAP, w')
    ∧ vendor_from_mac OUI_MAP None = "-"
    ∧ vendor_from_mac OUI_MAP (Some EmptyString) = "-"
    ∧ (∀ mac, mac ≠ EmptyString →
         vendor_from_mac OUI_MAP (Some mac)
         = default "Unknown" (OUI_MAP !! oui_prefix mac))
    ∧ (∀ mac, mac ≠ EmptyString → OUI_MAP !! oui_prefix mac = None →
         vendor_from_mac OUI_MAP (Some mac) = "Unknown")
    ∧ (∀ w1 data w2,
         sys_isfile OUI_LOCAL_FILE w = (Ok true, w1) →
         sys_json_load OUI_LOCAL_FILE w1 = (Ok data, w2) →
         OUI_MAP = merge_oui OUI_FALLBACK data
         ∧ (∀ k v, (k, v) ∈ data →
              ∃ k' v', (k', v') ∈ data ∧ oui_prefix k' = oui_prefix k
                       ∧ OUI_MAP !! oui_prefix k = Some v')
         ∧ (∀ pre k v post mac,
              data = pre ++ (k, v) :: post →
              (∀ kv, kv ∈ post → oui_prefix kv.1 ≠ oui_prefix k) →
              mac ≠ EmptyString → oui_prefix mac = oui_prefix k →
              vendor_from_mac OUI_MAP (Some mac) = v)
         ∧ (∀ p, (∀ kv, kv ∈ data → oui_prefix kv.1 ≠ p) →
              OUI_MAP !! p = OUI_FALLBACK !! p))
    ∧ (OUI_MAP = OUI_FALLBACK →
         vendor_from_mac OUI_MAP (Some "B8:27:EB:11:22:33") = "Raspberry Pi").
Proof.
  pose proof (load_oui_map_run w) as Hrun.
  assert (∃ OUI_MAP w', load_oui_map w = (Ok OUI_MAP, w')) as (OUI_MAP & w' & Hload).
  { rewrite Hrun. destruct (sys_isfile OUI_LOCAL_FILE w) as [[[]|] w1]; eauto.
    destruct (sys_json_load OUI_LOCAL_FILE w1) as [[data|] w2]; eauto. }
  exists OUI_MAP, w'. split; [done|]. split; [done|]. split; [done|].
  split; [apply vendor_from_mac_lookup|].
  split. { intros mac Hmac Hnone. by rewrite vendor_from_mac_lookup, Hnone. }
  split; [|by intros ->; vm_compute].
  intros w1 data w2 Hfile Hjson. rewrite Hload, Hfile, Hjson in Hrun.
  injection Hrun as -> _. repeat split.
  - intros k v Hin.
    destruct (merge_oui_lookup data OUI_FALLBACK (oui_prefix k))
      as [(k' & v' & ? & ? & ?)|[Hnone _]]; [by exists k', v'|].
    by destruct (Hnone _ Hin).
  - intros pre k v post mac -> Hpost Hmac Hprefix.
    by rewrite vendor_from_mac_lookup, Hprefix, merge_oui_last.
  - intros p Hnone.
    by destruct (merge_oui_lookup data OUI_FALLBACK p)
      as [(k' & v' & Hin & ? & ?)|[_ ?]]; [destruct (Hnone _ Hin)|].
Qed.

End Vendors.

Lemma vendor_lookup_merged_witness :
  (∃ w', load_oui_map home = (Ok OUI_FALLBACK, w'))
  ∧ vendor_from_mac OUI_FALLBACK (Some "B8:27:EB:11:22:33") = "Raspberry Pi"
  ∧ ∃ OUI_MAP w',
      load_oui_map customised = (Ok OUI_MAP, w')
      ∧ OUI_FALLBACK !! "B827EB" = Some "Raspberry Pi"
      ∧ vendor_from_mac OUI_MAP (Some "B8:27:EB:11:22:33") = "Pi Foundation"
      ∧ vendor_from_mac OUI_MAP (Some "f0-d5-bf-00-00-01") = "Dell"
      ∧ vendor_from_mac OUI_MAP (Some "12:34:56:78:9a:bc") = "Unknown".
Proof.
  assert (load_oui_map home = (Ok OUI_FALLBACK, (load_oui_map home).2)) as Hhome
    by (vm_compute; reflexivity).
  destruct (vendor_lookup_merged home) as (m & w' & Hload & _ & _ & _ & _ & _ & Hpi).
  assert (m = OUI_FALLBACK) as -> by congruence.
  split; [by exists w'|]. split; [by apply Hpi|].
  destruct (vendor_lookup_merged customised)
    as (m & v' & Hcustom & _ & _ & Hlook & Hunknown & Hfile & _).
  exists m, v'. split; [done|]. split; [by vm_compute|].
  destruct (Hfile customised
              [("b8:27:eb", "Pi Foundation"); ("00-11-22-33-44-55", "Acme")] customised)
    as (Hm & _ & Hlast & Hkeep); [reflexivity..|].
  split; [|split].
  - apply (Hlast [] "b8:27:eb" "Pi Foundation" [("00-11-22-33-44-55", "Acme")]);
      [reflexivity| |discriminate|by vm_compute].
    intros kv ->%list_elem_of_singleton. by vm_compute.
  - rewrite Hlook by discriminate. rewrite Hkeep; [by vm_compute|].
    intros kv [->| ->%list_elem_of_singleton]%elem_of_cons; by vm_compute.
  - apply Hunknown; [discriminate|]. rewrite Hkeep; [by vm_compute|].
    intros kv [->| ->%list_elem_of_singleton]%elem_of_cons; by vm_compute.
Defined.

(** ** Normal form of a hardware address *)

Section NormalForm.

Lemma upper_char_idem c : PyStr.upper_char (PyStr.upper_char c) = PyStr.upper_char c.
Proof. by destruct c as [[] [] [] [] [] [] [] []]. Qed.

Lemma upper_lower_char c : PyStr.upper_char (PyStr.lower_char c) = PyStr.upper_char c.
Proof. by destruct c as [[] [] [] [] [] [] [] []]. Qed.

Lemma upper_char_colon c : Ascii.eqb (PyStr.upper_char c) ":" = Ascii.eqb c ":".
Proof. by destruct c as [[] [] [] [] [] [] [] []]. Qed.

Lemma upper_char_hyphen c : Ascii.eqb (PyStr.upper_char c) "-" = Ascii.eqb c "-".
Proof. by destruct c as [[] [] [] [] [] [] [] []]. Qed.

Lemma map_chars_ext f g s :
  (∀ c, f c = g c) → PyStr.map_chars f s = PyStr.map_chars g s.
Proof. intros Hfg. induction s as [|c s IH]; simpl; [done|]. by rewrite Hfg, IH. Qed.

Lemma map_chars_compose f g s :
  PyStr.map_chars f (PyStr.map_chars g s) = PyStr.map_chars (λ c, f (g c)) s.
Proof. induction s as [|c s IH]; simpl; [done|]. by rewrite IH. Qed.

Lemma upper_idem s : PyStr.upper (PyStr.upper s) = PyStr.upper s.
Proof.
  unfold PyStr.upper. rewrite map_chars_compose.
  apply map_chars_ext, upper_char_idem.
Qed.

Lemma upper_lower s : PyStr.upper (PyStr.lower s) = PyStr.upper s.
Proof.
  unfold PyStr.upper, PyStr.lower. rewrite map_chars_compose.
  apply map_chars_ext, upper_lower_char.
Qed.

Lemma map_chars_app f s t :
  PyStr.map_chars f (s +:+ t) = PyStr.map_chars f s +:+ PyStr.map_chars f t.
Proof. induction s as [|c s IH]; simpl; [done|]. by rewrite IH. Qed.

Lemma remove_char_app c s t :
  PyStr.remove_char c (s +:+ t) = PyStr.remove_char c s +:+ PyStr.remove_char c t.
Proof.
  induction s as [|d s IH]; simpl; [done|].
  destruct (Ascii.eqb d c); simpl; by rewrite IH.
Qed.

Lemma slice_to_app n s t :
  (n ≤ String.length s)%nat → PyStr.slice_to n (s +:+ t) = PyStr.slice_to n s.
Proof.
  revert s. induction n as [|n IH]; intros [|c s] Hlen; simpl in *; try done; [lia|].
  rewrite IH; [done|lia].
Qed.

Lemma mac_normal_form_app s t :
  mac_normal_form (s +:+ t) = mac_normal_form s +:+ mac_normal_form t.
Proof.
  unfold mac_normal_form, PyStr.upper.
  by rewrite map_chars_app, !remove_char_app.
Qed.

Lemma mac_normal_form_upper s : mac_normal_form (PyStr.upper s) = mac_normal_form s.
Proof. unfold mac_normal_form. by rewrite upper_idem. Qed.

Lemma mac_normal_form_lower s : mac_normal_form (PyStr.lower s) = mac_normal_form s.
Proof. unfold mac_normal_form. by rewrite upper_lower. Qed.

(** Colons and hyphens are interchangeable. *)
Lemma mac_normal_form_delimiter c d s :
  (c = ":" ∧ d = "-" ∨ c = "-" ∧ d = ":")%char →
  mac_normal_form (replace_char c d s) = mac_normal_form s.
Proof.
  intros Hcd. unfold mac_normal_form, PyStr.upper.
  induction s as [|x s IH]; [done|].
  cbn [replace_char PyStr.map_chars PyStr.remove_char].
  rewrite !upper_char_colon.
  destruct (Ascii.eqb_spec x c) as [->|Hx].
  - destruct Hcd as [[-> ->]|[-> ->]]; cbn; exact IH.
  - destruct (Ascii.eqb x ":"); [exact IH|].
    cbn [PyStr.remove_char]. rewrite upper_char_hyphen.
    destruct (Ascii.eqb x "-"); [exact IH|]. by rewrite IH.
Qed.

Lemma map_chars_nonempty f s : s ≠ EmptyString → PyStr.map_chars f s ≠ EmptyString.
Proof. by destruct s. Qed.

(** C10: for non-empty hardware addresses the vendor is a function of the
    first six characters of the normal form (upper case, colons and hyphens
    removed): two addresses that agree on them get the same vendor; so the
    vendor is unchanged by a change of case, by writing hyphens for colons
    or colons for hyphens, and by whatever follows once the normal form has
    six characters. *)
Theorem vendor_depends_on_prefix (OUI_MAP : gmap string string) :
  (∀ a b : string,
     a ≠ EmptyString → b ≠ EmptyString →
     PyStr.slice_to 6 (mac_normal_form a) = PyStr.slice_to 6 (mac_normal_form b) →
     vendor_from_mac OUI_MAP (Some a) = vendor_from_mac OUI_MAP (Some b))
  ∧ (∀ a : string,
       a ≠ EmptyString →
       vendor_from_mac OUI_MAP (Some (PyStr.upper a)) = vendor_from_mac OUI_MAP (Some a)
       ∧ vendor_from_mac OUI_MAP (Some (PyStr.lower a)) = vendor_from_mac OUI_MAP (Some a)
       ∧ vendor_from_mac OUI_MAP (Some (replace_char ":" "-" a))
         = vendor_from_mac OUI_MAP (Some a)
       ∧ vendor_from_mac OUI_MAP (Some (replace_char "-" ":" a))
         = vendor_from_mac OUI_MAP (Some a))
  ∧ (∀ a rest : string,
       (6 ≤ String.length (mac_normal_form a))%nat →
       vendor_from_mac OUI_MAP (Some (a +:+ rest)) = vendor_from_mac OUI_MAP (Some a)).
Proof.
  assert (∀ a b : string,
     a ≠ EmptyString → b ≠ EmptyString →
     PyStr.slice_to 6 (mac_normal_form a) = PyStr.slice_to 6 (mac_normal_form b) →
     vendor_from_mac OUI_MAP (Some a) = vendor_from_mac OUI_MAP (Some b)) as Hcong.
  { intros a b Ha Hb Hprefix.
    rewrite !vendor_from_mac_lookup by done. unfold oui_prefix. by rewrite Hprefix. }
  split; [done|]. split.
  - intros a Ha. repeat split; apply Hcong; try done.
    + by apply map_chars_nonempty.
    + by rewrite mac_normal_form_upper.
    + by apply map_chars_nonempty.
    + by rewrite mac_normal_form_lower.
    + by destruct a.
    + rewrite mac_normal_form_delimiter; [done|by left].
    + by destruct a.
    + rewrite mac_normal_form_delimiter; [done|by right].
  - intros a rest Hlen.
    assert (a ≠ EmptyString) by (intros ->; simpl in Hlen; lia).
    apply Hcong; [by destruct a|done|].
    by rewrite mac_normal_form_app, slice_to_app.
Qed.

End NormalForm.

Lemma vendor_depends_on_prefix_witness :
  PyStr.slice_to 6 (mac_normal_form "b8-27-eb-aa-bb-cc") = "B827EB"
  ∧ PyStr.slice_to 6 (mac_normal_form "B8:27:EB:11:22:33") = "B827EB"
  ∧ vendor_from_mac OUI_FALLBACK (Some "b8-27-eb-aa-bb-cc")
    = vendor_from_mac OUI_FALLBACK (Some "B8:27:EB:11:22:33")
  ∧ vendor_from_mac OUI_FALLBACK (Some "B8:27:EB:11:22:33") = "Raspberry Pi".
Proof.
  split; [by vm_compute|]. split; [by vm_compute|]. split; [|by vm_compute].
  destruct (vendor_depends_on_prefix OUI_FALLBACK) as [Hcong _].
  apply Hcong; [done|done|by vm_compute].
Defined.

(** ** The target network *)

Section TargetNetwork.

Context {W : Type} `{!Platform W}.





End TargetNetwork.


Lemma neighbor_lookup_never_zero_witness :
  (mac_for_ip "192.168.1.7" home).1 = Ok (Some "b8:27:eb:11:22:33")
  ∧ (mac_for_ip "192.168.1.9" home).1 = Ok None
  ∧ (mac_for_ip "192.168.1.7" exhausted).1 = Ok (Some "b8:27:eb:11:22:33")
  ∧ (mac_for_ip "192.168.1.7" Sim.quiet).1 = Ok None.
Proof.
  assert (∀ ip w lines failed,
            (sys_read_lines "/proc/net/arp" w).1 = Ok (lines, failed) →
            (∃ pre line post mac,
               tail lines = pre ++ line :: post
               ∧ PyStr.split line !! 0%nat = Some ip
               ∧ PyStr.split line !! 3%nat = Some mac
               ∧ mac ≠ ZERO_MAC
               ∧ (∀ l, l ∈ post → PyStr.split l !! 0%nat ≠ Some ip)
               ∧ mac = "b8:27:eb:11:22:33") →
            (mac_for_ip ip w).1 = Ok (Some "b8:27:eb:11:22:33")) as Hfound.
  { intros ip w lines failed Hread
      (pre & line & post & mac & Hrows & H0 & H3 & Hnz & Hpost & ->).
    destruct (neighbor_lookup_never_zero ip w) as (r & w' & Hrun & _ & _ & Hfile).
    destruct (Hfile lines failed Hread) as (_ & _ & Hlast).
    rewrite Hrun. simpl. f_equal. by eapply Hlast. }
  split; [|split; [|split]].
  - eapply (Hfound _ home); [reflexivity|].
    exists [], (arp_table !!! 1%nat), [arp_table !!! 2%nat], "b8:27:eb:11:22:33".
    repeat split; try done.
    intros l ->%list_elem_of_singleton. by vm_compute.
  - destruct (neighbor_lookup_never_zero "192.168.1.9" home)
      as (r & w' & Hrun & _ & _ & Hfile).
    destruct (Hfile arp_table false) as (_ & Hzero & _); [reflexivity|].
    rewrite Hrun. simpl. f_equal. apply Hzero.
    intros line [->| ->%list_elem_of_singleton]%elem_of_cons; by vm_compute.
  - eapply (Hfound _ exhausted); [reflexivity|].
    exists [], (arp_table !!! 1%nat), [arp_table !!! 2%nat], "b8:27:eb:11:22:33".
    repeat split; try done.
    intros l ->%list_elem_of_singleton. by vm_compute.
  - destruct (neighbor_lookup_never_zero "192.168.1.7" Sim.quiet)
      as (r & w' & Hrun & _ & Hfail & _).
    rewrite Hrun. simpl. f_equal. by apply Hfail.
Defined.

(** When the read of the table fails after the row of an address, the
    lookup still returns that row's hardware address; and an all-zero
    address written with hyphens is returned like any other. *)
Lemma neighbor_lookup_keeps_rows_read_before_failure :
  (@sys_read_lines _ interrupted "/proc/net/arp" home).1 = Ok (take 2 arp_table, true)
  ∧ (@mac_for_ip _ interrupted "192.168.1.7" home).1 = Ok (Some "b8:27:eb:11:22:33")
  ∧ (mac_for_ip "192.168.1.9" office).1 = Ok (Some "00-00-00-00-00-00").
Proof. repeat split; vm_compute; reflexivity. Qed.

(** * Further properties of the probes *)

(** Two runs of the same call from the same world are the same run. *)
Ltac same_run :=
  repeat match goal with
         | H : _ ∧ _ |- _ => destruct H
         | H : _ ∨ _ |- _ => destruct H
         | H : ∃ _, _ |- _ => destruct H
         | H : (_, _) = (_, _) |- _ =>
             first [discriminate H | injection H; clear H; intros; subst]
         | H1 : ?m = _, H2 : ?m = _ |- _ => rewrite H1 in H2
         end.

Section Probes.

Context {W : Type} `{!Platform W}.

(** [udp_nudge] never raises, whichever of its steps fails; it closes its
    socket when the datagram has been sent, and returns without closing it
    when [sendto] raises. *)
Theorem udp_nudge_swallows (ip : string) (port : Z) (w : W) :
  ∃ w',
    udp_nudge ip port w = (Ok (), w')
    ∧ (∀ w1, sys_socket SOCK_DGRAM w = (Raised, w1) → w' = w1)
    ∧ (∀ s w1 w2 w3,
         sys_socket SOCK_DGRAM w = (Ok s, w1) →
         sys_settimeout s 50 w1 = (Ok (), w2) →
         sys_sendto s "x" ip port w2 = (Raised, w3) →
         w' = w3)
    ∧ (∀ s w1 w2 w3,
         sys_socket SOCK_DGRAM w = (Ok s, w1) →
         sys_settimeout s 50 w1 = (Ok (), w2) →
         sys_sendto s "x" ip port w2 = (Ok (), w3) →
         w' = (sys_close s w3).2).
Proof.
  unfold udp_nudge, try_except. rewrite bind_run.
  destruct (sys_socket SOCK_DGRAM w) as [[s|] w1] eqn:Hs.
  2: { exists w1. repeat split; intros; same_run; done. }
  rewrite bind_run. destruct (sys_settimeout s 50 w1) as [[[]|] w2] eqn:Ht.
  2: { exists w2. repeat split; intros; same_run; done. }
  rewrite bind_run. destruct (sys_sendto s "x" ip port w2) as [[[]|] w3] eqn:Hsend.
  2: { exists w3. repeat split; intros; same_run; done. }
  destruct (sys_close s w3) as [[[]|] w4] eqn:Hclose;
    exists w4; repeat split; intros; same_run; try done; by rewrite Hclose.
Qed.

(** [ping] never raises and is true exactly when the [ping] tool, run once
    with a one-second wait on the address, exits with status 0; a missing
    tool or any other status is a negative answer. *)
Theorem ping_verdict (ip : string) (w : W) :
  ∃ up,
    ping ip w = (Ok up, (sys_run ["ping"; "-c"; "1"; "-W"; "1"; ip] w).2)
    ∧ (up = true ↔ (sys_run ["ping"; "-c"; "1"; "-W"; "1"; ip] w).1 = Ok 0).
Proof.
  unfold ping, try_except. rewrite bind_run.
  destruct (sys_run _ w) as [[r|] w1]; cbn.
  - exists (r =? 0). split; [done|]. rewrite Z.eqb_eq. split; [by intros ->|by intros [= ->]].
  - exists false. by split.
Qed.

(** [tcp_check] answers true exactly when the socket was created,
    [connect_ex] returned 0 and the socket was then closed without error;
    the only exceptions that leave it are those of creating the socket and
    of setting its time-out. *)
Theorem tcp_check_verdict (ip : string) (port timeout : Z) (w w' : W) :
  (tcp_check ip port timeout w = (Ok true, w') ↔
     ∃ s w1 w2 w3,
       sys_socket SOCK_STREAM w = (Ok s, w1)
       ∧ sys_settimeout s timeout w1 = (Ok (), w2)
       ∧ sys_connect_ex s ip port w2 = (Ok 0, w3)
       ∧ sys_close s w3 = (Ok (), w'))
  ∧ (tcp_check ip port timeout w = (Raised, w') ↔
       sys_socket SOCK_STREAM w = (Raised, w')
       ∨ ∃ s w1, sys_socket SOCK_STREAM w = (Ok s, w1)
                 ∧ sys_settimeout s timeout w1 = (Raised, w')).
Proof.
  unfold tcp_check, try_except. rewrite !bind_run.
  destruct (sys_socket SOCK_STREAM w) as [[s|] w1] eqn:Hs.
  2: { split; split; intros; same_run; try done. by left. }
  rewrite bind_run. destruct (sys_settimeout s timeout w1) as [[[]|] w2] eqn:Ht.
  2: { split; split; intros; same_run; try done. right. by exists s, w1. }
  rewrite bind_run. destruct (sys_connect_ex s ip port w2) as [[r|] w3] eqn:Hc.
  2: { split; split; intros; same_run; done. }
  rewrite bind_run. destruct (sys_close s w3) as [[[]|] w4] eqn:Hclose.
  - unfold mret, M_ret. split; split; intros; same_run; try done.
    assert (r = 0) as -> by by apply Z.eqb_eq. by exists s, w1, w2, w3.
  - unfold mret, M_ret. split; split; intros; same_run; done.
Qed.

Lemma arp_rows_sound rows : ∀ t ip mac,
  foldl arp_row t rows !! ip = Some mac →
  t !! ip = Some mac
  ∨ ∃ line, line ∈ rows
            ∧ PyStr.split line !! 0%nat = Some ip
            ∧ PyStr.split line !! 3%nat = Some mac.
Proof.
  induction rows as [|line rows IH]; intros t ip mac; [by left|].
  simpl. intros [Hrow|(l & Hl & H0 & H3)]%IH.
  - unfold arp_row in Hrow.
    destruct (4 <=? length (PyStr.split line))%nat; [|by left].
    destruct (PyStr.split line !! 0%nat) as [ip'|] eqn:H0; [|by left].
    destruct (PyStr.split line !! 3%nat) as [mac'|] eqn:H3; [|by left].
    destruct (PyStr.truthy mac' && negb (String.eqb mac' ZERO_MAC)); [|by left].
    rewrite lookup_insert in Hrow. case_decide; [|by left].
    simplify_eq. right. exists line. split; [by left|done].
  - right. exists l. split; [by right|done].
Qed.

(** [read_arp_table] never raises; each entry of the table it returns
    binds the first word of some row read after the header line to the
    fourth word of that row, which is neither empty nor the all-zero
    address; a file that cannot be opened, has no line or has the header
    line only gives the empty table, and a read that fails later keeps the
    rows read before the failure. *)
Theorem read_arp_table_sound (w : W) :
  ∃ table,
    read_arp_table w = (Ok table, (sys_read_lines "/proc/net/arp" w).2)
    ∧ table_valid table
    ∧ (∀ ip mac, table !! ip = Some mac →
         ∃ lines failed line,
           (sys_read_lines "/proc/net/arp" w).1 = Ok (lines, failed)
           ∧ line ∈ tail lines
           ∧ PyStr.split line !! 0%nat = Some ip
           ∧ PyStr.split line !! 3%nat = Some mac)
    ∧ ((sys_read_lines "/proc/net/arp" w).1 = Raised → table = ∅)
    ∧ (∀ lines failed,
         (sys_read_lines "/proc/net/arp" w).1 = Ok (lines, failed) →
         table = foldl arp_row ∅ (tail lines)
         ∧ ((length lines ≤ 1)%nat → table = ∅)).
Proof.
  rewrite read_arp_table_run.
  destruct (sys_read_lines "/proc/net/arp" w) as [[[lines failed]|] w1]; cbn.
  - exists (foldl arp_row ∅ (tail lines)). split; [done|]. split.
    { apply arp_rows_valid. intros ? ? Hl. by rewrite lookup_empty in Hl. }
    split; [|split; [done|]].
    + intros ip mac [Hl|(line & ? & ? & ?)]%arp_rows_sound.
      * by rewrite lookup_empty in Hl.
      * by exists lines, failed, line.
    + intros ? ? [= <- <-]. split; [done|].
      destruct lines as [|header [|row rows]]; simpl; try done; lia.
  - exists ∅. repeat split; try done; intros ? ? Hl; by rewrite lookup_empty in Hl.
Qed.

Lemma executor_map_ran {A B} (f : A → M W B) xs : ∀ w ys w',
  executor_map f xs w = (Ok ys, w') ↔ ran f xs ys w w'.
Proof.
  induction xs as [|x xs IH]; intros w ys w'; simpl.
  - split.
    + intros [= <- <-]. constructor.
    + by inversion 1.
  - rewrite bind_run. split.
    + destruct (f x w) as [[y|] w1] eqn:Hx; [|done]. rewrite bind_run.
      destruct (executor_map f xs w1) as [[ys'|] w2] eqn:Hxs; [|done].
      intros [= <- <-]. econstructor; [done|]. by apply IH.
    + inversion 1 as [|? ? y ys' ? w1 ? Hx Hxs]; subst.
      rewrite Hx, bind_run. apply IH in Hxs. by rewrite Hxs.
Qed.

Lemma ran_lookup {A B} (f : A → M W B) xs ys w w' :
  ran f xs ys w w' →
  length ys = length xs
  ∧ ∀ (i : nat) x, xs !! i = Some x →
      ∃ y wa wb, ys !! i = Some y ∧ f x wa = (Ok y, wb).
Proof.
  induction 1 as [w|x xs y ys w w1 w2 Hx _ [IHlen IH]]; simpl.
  - split; [done|]. by intros i x.
  - split; [by rewrite IHlen|]. intros [|i] x' Hi; simplify_eq/=.
    + by exists y, w, w1.
    + by apply IH.
Qed.

(** When [executor_map] completes, it hands back one result per task, in
    the order of the tasks, the result at each position being the value the
    task at that position returned. *)
Theorem executor_map_results {A B} (f : A → M W B) (xs : list A) (w w' : W)
    (ys : list B) :
  executor_map f xs w = (Ok ys, w') →
  length ys = length xs
  ∧ ran f xs ys w w'
  ∧ ∀ (i : nat) x, xs !! i = Some x →
      ∃ y wa wb, ys !! i = Some y ∧ f x wa = (Ok y, wb).
Proof.
  intros Hrun%executor_map_ran. destruct (ran_lookup _ _ _ _ _ Hrun) as [Hlen Hlook].
  by repeat split.
Qed.


Lemma first_positive_inv (probes : list (M W bool)) : ∀ w r w',
  first_positive probes w = (r, w') →
  match r with
  | Ok true =>
      ∃ pre p post w2,
        probes = pre ++ p :: post ∧ negatives pre w w2 ∧ p w2 = (Ok true, w')
  | Ok false => negatives probes w w'
  | Raised =>
      ∃ pre p post w2,
        probes = pre ++ p :: post ∧ negatives pre w w2 ∧ p w2 = (Raised, w')
  end.
Proof.
  induction probes as [|p probes IH]; intros w r w'; simpl.
  - intros [= <- <-]. constructor.
  - rewrite bind_run. destruct (p w) as [[[]|] w1] eqn:Hp.
    + intros [= <- <-]. exists [], p, probes, w. split; [done|]. split; [constructor|done].
    + intros Hrest. specialize (IH _ _ _ Hrest). destruct r as [[]|].
      * destruct IH as (pre & q & post & w2 & -> & Hneg & Hq).
        exists (p :: pre), q, post, w2. split; [done|]. split; [by econstructor|done].
      * by econstructor.
      * destruct IH as (pre & q & post & w2 & -> & Hneg & Hq).
        exists (p :: pre), q, post, w2. split; [done|]. split; [by econstructor|done].
    + intros [= <- <-]. exists [], p, probes, w. split; [done|]. split; [constructor|done].
Qed.

(** Every verdict of [is_alive] is backed by the probes: true means that
    one probe answered true after all the earlier ones had answered false,
    false means that all twenty probes ran and answered false, and an
    exception is the exception of a TCP check reached after negative
    answers only. *)
Theorem is_alive_verdict_backed (ip : string) (w w' : W) (r : outcome bool) :
  is_alive ip w = (r, w') →
  ∃ w1,
    udp_nudge ip 1 w = (Ok (), w1)
    ∧ match r with
      | Ok true =>
          ∃ pre p post w2,
            liveness_probes ip = pre ++ p :: post
            ∧ negatives pre w1 w2 ∧ p w2 = (Ok true, w')
      | Ok false => negatives (liveness_probes ip) w1 w'
      | Raised =>
          ∃ pre port post w2,
            liveness_probes ip = pre ++ tcp_check ip port 500 :: post
            ∧ port ∈ PORTS
            ∧ negatives pre w1 w2 ∧ tcp_check ip port 500 w2 = (Raised, w')
      end.
Proof.
  rewrite is_alive_first_positive, bind_run.
  destruct (udp_nudge_completes ip 1 w) as [w1 Hnudge]. rewrite Hnudge.
  intros Hrun%first_positive_inv. exists w1. split; [done|].
  destruct r as [[]|]; [done..|].
  destruct Hrun as (pre & p & post & w2 & Hprobes & Hneg & Hp).
  assert (p ∈ liveness_probes ip) as Hin.
  { rewrite Hprobes. apply elem_of_app. right. by left. }
  unfold liveness_probes in Hin.
  rewrite !elem_of_app, !elem_of_cons, list_elem_of_fmap in Hin.
  destruct Hin as [[->| [->|[]%elem_of_nil]]|[(port & -> & Hport)|[->|[->|[]%elem_of_nil]]]].
  - by destruct (neighbor_hit_never_raises ip w2); rewrite Hp.
  - by destruct (ping_never_raises ip w2); rewrite Hp.
  - by exists pre, port, post, w2.
  - by destruct (nmb_has_name_never_raises ip w2); rewrite Hp.
  - by destruct (neighbor_hit_never_raises ip w2); rewrite Hp.
Qed.

End Probes.

(** * Further properties of the vendor table *)

Section Prefixes.

Context {W : Type} `{!Platform W}.

Lemma normal_upper_char c :
  Ascii.eqb (PyStr.upper_char c) ":" = false →
  Ascii.eqb (PyStr.upper_char c) "-" = false →
  normal_char (PyStr.upper_char c) = true.
Proof.
  intros Hc Hh. unfold normal_char.
  by rewrite upper_char_idem, Ascii.eqb_refl, Hc, Hh.
Qed.

Lemma normal_mac_normal_form mac : normal_chars (mac_normal_form mac) = true.
Proof.
  unfold mac_normal_form, PyStr.upper. induction mac as [|c mac IH]; [done|].
  cbn [PyStr.map_chars PyStr.remove_char].
  destruct (Ascii.eqb (PyStr.upper_char c) ":") eqn:Hc; [done|].
  cbn [PyStr.remove_char].
  destruct (Ascii.eqb (PyStr.upper_char c) "-") eqn:Hh; [done|].
  cbn [normal_chars]. by rewrite normal_upper_char, IH.
Qed.

Lemma normal_slice_to n : ∀ s,
  normal_chars s = true → normal_chars (PyStr.slice_to n s) = true.
Proof.
  induction n as [|n IH]; intros [|c s]; simpl; try done.
  intros [Hc Hs]%andb_true_iff. by rewrite Hc, IH.
Qed.

Lemma normal_fixed s : normal_chars s = true → mac_normal_form s = s.
Proof.
  unfold mac_normal_form, PyStr.upper. induction s as [|c s IH]; [done|].
  cbn [normal_chars]. intros [Hc Hs]%andb_true_iff.
  unfold normal_char in Hc.
  apply andb_true_iff in Hc as [[Hup%Ascii.eqb_eq Hcolon%negb_true_iff]%andb_true_iff
                                  Hhyphen%negb_true_iff].
  cbn [PyStr.map_chars PyStr.remove_char]. rewrite Hup, Hcolon.
  cbn [PyStr.remove_char]. by rewrite Hhyphen, IH.
Qed.

Lemma slice_to_length n : ∀ s, (String.length (PyStr.slice_to n s) ≤ n)%nat.
Proof.
  induction n as [|n IH]; intros [|c s]; simpl; try lia.
  specialize (IH s). lia.
Qed.

Lemma slice_to_short n : ∀ s, (String.length s ≤ n)%nat → PyStr.slice_to n s = s.
Proof.
  induction n as [|n IH]; intros [|c s]; simpl; try done; [lia|].
  intros Hlen. rewrite IH; [done|lia].
Qed.

(** The lookup key of an address has at most six characters, none of them
    a lower-case letter, a colon or a hyphen, and it is its own lookup key;
    conversely every such string is the lookup key of itself. *)
Theorem oui_prefix_normal (mac : string) :
  (String.length (oui_prefix mac) ≤ 6)%nat
  ∧ normal_chars (oui_prefix mac) = true
  ∧ oui_prefix (oui_prefix mac) = oui_prefix mac
  ∧ (normal_chars mac = true → (String.length mac ≤ 6)%nat → oui_prefix mac = mac).
Proof.
  assert (∀ s, normal_chars s = true → (String.length s ≤ 6)%nat → oui_prefix s = s)
    as Hfixed.
  { intros s Hs Hlen. unfold oui_prefix. by rewrite normal_fixed, slice_to_short. }
  pose proof (slice_to_length 6 (mac_normal_form mac)) as Hlen.
  pose proof (normal_slice_to 6 _ (normal_mac_normal_form mac)) as Hnormal.
  split; [done|]. split; [done|]. split; [|apply Hfixed].
  by apply Hfixed.
Qed.

Lemma dict_of_items_from items : ∀ (m : gmap string string) p v,
  foldl (λ m kv, <[kv.1 := kv.2]> m) m items !! p = Some v →
  m !! p = Some v ∨ (p, v) ∈ items.
Proof.
  induction items as [|[k x] items IH]; intros m p v; simpl; [by left|].
  intros [Hm|Hin]%IH; [|right; by right].
  rewrite lookup_insert in Hm. case_decide; [|by left].
  simplify_eq/=. right. by left.
Qed.

Lemma OUI_FALLBACK_normal p v :
  OUI_FALLBACK !! p = Some v → oui_prefix p = p ∧ p ≠ EmptyString.
Proof.
  intros [Hm|Hin]%dict_of_items_from; [by rewrite lookup_empty in Hm|].
  assert (Forall (λ kv, oui_prefix kv.1 = kv.1 ∧ kv.1 ≠ EmptyString) OUI_FALLBACK_ITEMS)
    as Hall by (repeat constructor; by vm_compute).
  by apply (proj1 (Forall_forall _ _) Hall (p, v)).
Qed.

Lemma merge_oui_grows data : ∀ m p,
  is_Some (m !! p) → is_Some (merge_oui m data !! p).
Proof.
  unfold merge_oui. induction data as [|[k v] data IH]; intros m p Hp; [done|].
  simpl. apply IH. rewrite lookup_insert. by case_decide.
Qed.

(** Whatever happens while the external file is loaded, the table on which
    the vendors are looked up still has every built-in prefix; each of its
    keys is a lookup key (six normalised characters at most), so that every
    entry with a non-empty key is found again under its own key; and when
    the file is absent or cannot be read as JSON, the table is the built-in
    one. *)
Theorem load_oui_map_keeps_fallback (w w' : W) (OUI_MAP : gmap string string) :
  load_oui_map w = (Ok OUI_MAP, w') →
  (∀ p, is_Some (OUI_FALLBACK !! p) → is_Some (OUI_MAP !! p))
  ∧ (∀ p v, OUI_MAP !! p = Some v → oui_prefix p = p)
  ∧ (∀ p v, OUI_MAP !! p = Some v → p ≠ EmptyString →
       vendor_from_mac OUI_MAP (Some p) = v)
  ∧ ((sys_isfile OUI_LOCAL_FILE w).1 ≠ Ok true → OUI_MAP = OUI_FALLBACK)
  ∧ (∀ w1, sys_isfile OUI_LOCAL_FILE w = (Ok true, w1) →
       (sys_json_load OUI_LOCAL_FILE w1).1 = Raised → OUI_MAP = OUI_FALLBACK).
Proof.
  rewrite load_oui_map_run. intros Hload.
  assert (OUI_MAP = OUI_FALLBACK
          ∨ ∃ data, OUI_MAP = merge_oui OUI_FALLBACK data) as Hshape.
  { destruct (sys_isfile OUI_LOCAL_FILE w) as [[[]|] w1]; simplify_eq; auto.
    destruct (sys_json_load OUI_LOCAL_FILE w1) as [[data|] w2]; simplify_eq; eauto. }
  assert (∀ p v, OUI_MAP !! p = Some v → oui_prefix p = p) as Hkeys.
  { intros p v Hp. destruct Hshape as [->|[data ->]].
    - by destruct (OUI_FALLBACK_normal p v Hp).
    - destruct (merge_oui_lookup data OUI_FALLBACK p)
        as [(k & x & _ & <- & _)|[_ Hm]].
      + by destruct (oui_prefix_normal k) as (_ & _ & ? & _).
      + rewrite Hm in Hp. by destruct (OUI_FALLBACK_normal p v Hp). }
  split; [|split; [done|split; [|split]]].
  - intros p Hp. destruct Hshape as [->|[data ->]]; [done|]. by apply merge_oui_grows.
  - intros p v Hp Hne. by rewrite vendor_from_mac_lookup, (Hkeys p v Hp), Hp.
  - intros Hfile.
    by destruct (sys_isfile OUI_LOCAL_FILE w) as [[[]|] w1]; simplify_eq/=.
  - intros w1 Hfile Hjson. rewrite Hfile in Hload.
    by destruct (sys_json_load OUI_LOCAL_FILE w1) as [[data|] w2]; simplify_eq/=.
Qed.

End Prefixes.

(** * Further properties of the NetBIOS answers *)

Section Answers.

Context {W : Type} `{!Platform W}.

Lemma prefix_app word s t :
  String.prefix word s = true → String.prefix word (s +:+ t) = true.
Proof.
  revert s. induction word as [|a word IH]; intros s.
  - intros _. by destruct (s +:+ t).
  - destruct s as [|c s]; [done|]. simpl.
    destruct (ascii_dec a c); [apply IH|done].
Qed.

Lemma contains_app_l word s t :
  PyStr.contains word s = true → PyStr.contains word (s +:+ t) = true.
Proof.
  induction s as [|c s IH].
  - simpl. rewrite orb_false_r. destruct word; [|done]. by destruct t.
  - cbn [PyStr.contains String.append].
    intros [Hp|Hc]%orb_true_iff; apply orb_true_iff.
    + left. by apply (prefix_app word (String c s) t).
    + right. by apply IH.
Qed.

Lemma contains_lstrip word s :
  PyStr.contains word (PyStr.lstrip s) = true → PyStr.contains word s = true.
Proof.
  induction s as [|c s IH]; [done|]. simpl PyStr.lstrip.
  destruct (PyStr.is_space c); [|done].
  intros Hc%IH. cbn [PyStr.contains]. rewrite Hc. apply orb_true_r.
Qed.

Lemma rstrip_prefix s : ∃ t, s = PyStr.rstrip s +:+ t.
Proof.
  induction s as [|c s [t IH]]; [by exists EmptyString|].
  simpl. destruct (PyStr.rstrip s) as [|d r].
  - destruct (PyStr.is_space c); [exists (String c s)|exists s]; reflexivity.
  - exists t. rewrite IH at 1. reflexivity.
Qed.

Lemma contains_strip word s :
  PyStr.contains word (PyStr.strip s) = true → PyStr.contains word s = true.
Proof.
  unfold PyStr.strip. intros Hc. apply contains_lstrip.
  destruct (rstrip_prefix (PyStr.lstrip s)) as [t Ht]. rewrite Ht.
  by apply contains_app_l.
Qed.

(** The two NetBIOS readers agree: whenever the name loop of
    [resolve_hostname] finds a name in an answer, [nmb_has_name] counts the
    same answer as a hit. *)
Theorem netbios_name_implies_hit (ip : string) (w w1 w0 w0' : W) (out name : string) :
  sys_check_output ["nmblookup"; "-A"; ip] w = (Ok out, w1) →
  netbios_name_loop (PyStr.splitlines out) w0 = (Ok (Some name), w0') →
  nmb_has_name ip w = (Ok true, w1).
Proof.
  intros Hout Hloop. rewrite netbios_name_loop_run in Hloop.
  injection Hloop as Hfirst _.
  apply first_candidate_first in Hfirst as (pre & line & post & Hlines & Hline & _).
  apply netbios_candidate_name in Hline as (_ & _ & Hrec & _).
  unfold name_line in Hrec. apply andb_true_iff in Hrec as [Hrec _].
  apply contains_strip in Hrec.
  unfold nmb_has_name, try_except. rewrite bind_run, Hout.
  unfold mret, M_ret. do 2 f_equal.
  rewrite (contains_splitlines "<" "00>" out eq_refl), Hlines.
  apply existsb_exists. exists line. split; [|done].
  apply in_or_app. right. by left.
Qed.

End Answers.

(** * The menu and the report *)

Section Menu.

Context {W : Type} `{!Platform W} `{!Console W}.






End Menu.

(** * Runs on the scripted platform *)

Lemma udp_nudge_swallows_witness :
  (@udp_nudge _ unreachable "192.168.1.7" 1 home).1 = Ok ()
  ∧ Sim.open_fds (@udp_nudge _ unreachable "192.168.1.7" 1 home).2 = [3%nat]
  ∧ Sim.open_fds (udp_nudge "192.168.1.7" 1 home).2 = [].
Proof.
  destruct (@udp_nudge_swallows _ unreachable "192.168.1.7" 1 home)
    as (w' & Hrun & _ & Hrefused & _).
  destruct (udp_nudge_swallows "192.168.1.7" 1 home) as (v' & Hsent & _ & _ & Hclosed).
  rewrite Hrun, Hsent. split; [done|]. split.
  - erewrite (Hrefused 3%nat); [| reflexivity | reflexivity | reflexivity].
    reflexivity.
  - erewrite (Hclosed 3%nat); [| reflexivity | reflexivity | reflexivity].
    reflexivity.
Defined.

Lemma ping_verdict_witness :
  (ping "192.168.1.1" home).1 = Ok true
  ∧ (ping "192.168.1.7" home).1 = Ok false
  ∧ (ping "10.9.9.9" home).1 = Ok false.
Proof.
  split; [|split].
  - destruct (ping_verdict "192.168.1.1" home) as (up & -> & Hup).
    cbn [fst]. f_equal. by apply Hup.
  - destruct (ping_verdict "192.168.1.7" home) as (up & -> & Hup).
    cbn [fst]. f_equal. destruct up; [|done].
    destruct Hup as [Hup _]. specialize (Hup eq_refl). by vm_compute in Hup.
  - destruct (ping_verdict "10.9.9.9" home) as (up & -> & Hup).
    cbn [fst]. f_equal. destruct up; [|done].
    destruct Hup as [Hup _]. specialize (Hup eq_refl). by vm_compute in Hup.
Defined.

Lemma tcp_check_verdict_witness :
  (∃ w', tcp_check "192.168.1.40" 22 500 home = (Ok true, w')
         ∧ Sim.open_fds w' = [])
  ∧ ¬ ∃ w', tcp_check "192.168.1.40" 23 500 home = (Ok true, w').
Proof.
  split.
  - eexists. split.
    + apply tcp_check_verdict. eexists _, _, _, _.
      repeat split; reflexivity.
    + reflexivity.
  - intros [w' Hrun].
    apply tcp_check_verdict in Hrun as (s & w1 & w2 & w3 & Hs & Ht & Hc & _).
    vm_compute in Hs. injection Hs as <- <-.
    vm_compute in Ht. injection Ht as <-.
    vm_compute in Hc. discriminate.
Defined.

Lemma read_arp_table_sound_witness :
  (∃ table,
     (read_arp_table home).1 = Ok table
     ∧ table !! "192.168.1.7" = Some "b8:27:eb:11:22:33"
     ∧ table !! "192.168.1.9" = None
     ∧ table !! "IP" = None)
  ∧ (read_arp_table Sim.quiet).1 = Ok ∅
  ∧ ∃ partial,
      (@read_arp_table _ interrupted home).1 = Ok partial
      ∧ partial !! "192.168.1.7" = Some "b8:27:eb:11:22:33".
Proof.
  destruct (read_arp_table_sound home) as (table & Hrun & _ & _ & _ & Hrows).
  destruct (read_arp_table_sound Sim.quiet) as (none & Hquiet & _ & _ & Hfail & _).
  destruct (@read_arp_table_sound _ interrupted home)
    as (partial & Hpartial & _ & _ & _ & Hkept).
  destruct (Hrows arp_table false eq_refl) as [-> _].
  destruct (Hkept (take 2 arp_table) true eq_refl) as [-> _].
  rewrite Hrun, Hquiet, Hpartial. split; [|split].
  - eexists. split; [reflexivity|]. repeat split; by vm_compute.
  - cbn [fst]. f_equal. by apply Hfail.
  - eexists. split; [reflexivity|]. by vm_compute.
Defined.

Lemma executor_map_results_witness :
  (executor_map (λ p, tcp_check "192.168.1.40" p 500) PORTS home).1
  = Ok [false; true; false; false; false; false; false; false;
        false; false; false; false; false; false; true; false]
  ∧ ∃ wa wb, tcp_check "192.168.1.40" 22 500 wa = (Ok true, wb).
Proof.
  assert (executor_map (λ p, tcp_check "192.168.1.40" p 500) PORTS home
          = (Ok [false; true; false; false; false; false; false; false;
                 false; false; false; false; false; false; true; false],
             (executor_map (λ p, tcp_check "192.168.1.40" p 500) PORTS home).2))
    as Hrun by (vm_compute; reflexivity).
  destruct (executor_map_results _ _ _ _ _ Hrun) as (_ & _ & Hlook).
  split; [by rewrite Hrun|].
  destruct (Hlook 1%nat 22 eq_refl) as (y & wa & wb & Hy & Hcheck).
  injection Hy as <-. by exists wa, wb.
Defined.


Lemma is_alive_verdict_backed_witness :
  (∃ port w2 w', port ∈ PORTS
                 ∧ tcp_check "192.168.1.200" port 500 w2 = (Raised, w')
                 ∧ is_alive "192.168.1.200" exhausted = (Raised, w'))
  ∧ ∃ w1 w', is_alive "192.168.1.200" home = (Ok false, w')
             ∧ negatives (liveness_probes "192.168.1.200") w1 w'.
Proof.
  split.
  - assert (is_alive "192.168.1.200" exhausted
            = (Raised, (is_alive "192.168.1.200" exhausted).2)) as Hrun
      by (vm_compute; reflexivity).
    destruct (is_alive_verdict_backed _ _ _ _ Hrun)
      as (w1 & _ & pre & port & post & w2 & _ & Hport & _ & Hraise).
    exists port, w2, (is_alive "192.168.1.200" exhausted).2.
    split; [exact Hport|]. split; [exact Hraise|exact Hrun].
  - assert (is_alive "192.168.1.200" home
            = (Ok false, (is_alive "192.168.1.200" home).2)) as Hrun
      by (vm_compute; reflexivity).
    destruct (is_alive_verdict_backed _ _ _ _ Hrun) as (w1 & _ & Hneg).
    exists w1, (is_alive "192.168.1.200" home).2.
    split; [exact Hrun|exact Hneg].
Defined.

Lemma oui_prefix_normal_witness :
  oui_prefix "b8:27:eb:11:22:33" = "B827EB"
  ∧ oui_prefix "B827EB" = "B827EB"
  ∧ oui_prefix (oui_prefix "b8:27:eb:11:22:33") = oui_prefix "b8:27:eb:11:22:33".
Proof.
  split; [by vm_compute|]. split.
  - by apply (oui_prefix_normal "B827EB").
  - apply (oui_prefix_normal "b8:27:eb:11:22:33").
Defined.

Lemma load_oui_map_keeps_fallback_witness :
  (load_oui_map customised).1
  = Ok (merge_oui OUI_FALLBACK
          [("b8:27:eb", "Pi Foundation"); ("00-11-22-33-44-55", "Acme")])
  ∧ is_Some (merge_oui OUI_FALLBACK
               [("b8:27:eb", "Pi Foundation"); ("00-11-22-33-44-55", "Acme")]
             !! "F0D5BF")
  ∧ vendor_from_mac
      (merge_oui OUI_FALLBACK
         [("b8:27:eb", "Pi Foundation"); ("00-11-22-33-44-55", "Acme")])
      (Some "001122") = "Acme"
  ∧ (load_oui_map home).1 = Ok OUI_FALLBACK.
Proof.
  assert (load_oui_map customised
          = (Ok (merge_oui OUI_FALLBACK
                   [("b8:27:eb", "Pi Foundation"); ("00-11-22-33-44-55", "Acme")]),
             (load_oui_map customised).2)) as Hrun by (vm_compute; reflexivity).
  destruct (load_oui_map_keeps_fallback _ _ _ Hrun) as (Hkeep & _ & Hfind & _).
  split; [by rewrite Hrun|]. split; [apply Hkeep; vm_compute; by eexists|].
  split; [apply Hfind; by vm_compute|].
  assert (load_oui_map home = (Ok OUI_FALLBACK, (load_oui_map home).2)) as Hhome
    by (vm_compute; reflexivity).
  by rewrite Hhome.
Defined.

Lemma netbios_name_implies_hit_witness :
  (nmb_has_name "192.168.1.30" home).1 = Ok true.
Proof.
  assert (sys_check_output ["nmblookup"; "-A"; "192.168.1.30"] home
          = (Ok nmb_workstation,
             (sys_check_output ["nmblookup"; "-A"; "192.168.1.30"] home).2)) as Hout
    by (vm_compute; reflexivity).
  assert (netbios_name_loop (PyStr.splitlines nmb_workstation) home
          = (Ok (Some "DESKTOP-A1"), home)) as Hloop.
  { rewrite netbios_name_loop_run. by vm_compute. }
  by rewrite (netbios_name_implies_hit _ _ _ _ _ _ _ Hout Hloop).
Defined.

Section MenuRuns.

#[local] Existing Instance Desk.platform.
#[local] Existing Instance Desk.console.


End MenuRuns.
